(** * OData_Conversion: the spreadsheet ingestion pipeline of [load.py]

    A shallow embedding of [normalize_cols], [map_dataframe] and
    [copy_df_to_postgres], and the properties of the specification that
    are stated about them.

    Conventions of the embedding.
    - A Python [str] is a [string]; a character is a code point below 256.
    - A Python value that can sit in a header or in a cell is a [pyval].
    - A function that can raise returns a [result].
    - The calls into pandas are modelled with the behaviour of pandas 2.x on
      Python 3.11, object columns included, the one the code itself relies on
      when it replaces the text "nan" by [pd.NA] after [astype(str)]. What
      pandas and Python leave to their own parsers and printers is gathered
      in the record [library]. *)

From Stdlib Require Import String Ascii ZArith List Bool Lia.
From stdpp Require Import base option list gmap strings pretty.

Local Open Scope string_scope.
Local Open Scope list_scope.

(** ** Python strings *)

Module PyStr.

(** [str.isspace] on the code points below 256: TAB..CR, FS..US, space,
    NEL and NBSP. *)
Definition isspace (c : ascii) : bool :=
  let n := nat_of_ascii c in
  ((9 <=? n)%nat && (n <=? 13)%nat) || ((28 <=? n)%nat && (n <=? 32)%nat)
  || (n =? 133)%nat || (n =? 160)%nat.

(** [str.lower] on one code point below 256: A..Z and the Latin-1 capitals
    (all of 0xC0..0xDE but the multiplication sign). *)
Definition lower_char (c : ascii) : ascii :=
  let n := nat_of_ascii c in
  if ((65 <=? n)%nat && (n <=? 90)%nat)
     || ((192 <=? n)%nat && (n <=? 222)%nat && negb (n =? 215)%nat)
  then ascii_of_nat (n + 32) else c.

Fixpoint all_chars (p : ascii -> bool) (s : string) : bool :=
  match s with
  | EmptyString => true
  | String c s' => p c && all_chars p s'
  end.

Fixpoint map_chars (f : ascii -> ascii) (s : string) : string :=
  match s with
  | EmptyString => EmptyString
  | String c s' => String (f c) (map_chars f s')
  end.

Definition is_empty (s : string) : bool :=
  match s with EmptyString => true | _ => false end.

Fixpoint lstrip (s : string) : string :=
  match s with
  | EmptyString => EmptyString
  | String c s' => if isspace c then lstrip s' else s
  end.

Fixpoint rstrip (s : string) : string :=
  match s with
  | EmptyString => EmptyString
  | String c s' =>
      let r := rstrip s' in
      if is_empty r && isspace c then EmptyString else String c r
  end.

(** [s.strip()] *)
Definition strip (s : string) : string := rstrip (lstrip s).

(** [s.split()] with no separator: the maximal runs of non-space
    characters; [cur] is the run being read. *)
Fixpoint split_ws_from (cur s : string) : list string :=
  match s with
  | EmptyString => if is_empty cur then [] else [cur]
  | String c s' =>
      if isspace c
      then (if is_empty cur then split_ws_from EmptyString s'
            else cur :: split_ws_from EmptyString s')
      else split_ws_from (cur +:+ String c EmptyString) s'
  end.

Definition split_ws (s : string) : list string := split_ws_from EmptyString s.

(** [sep.join(parts)] *)
Fixpoint join (sep : string) (parts : list string) : string :=
  match parts with
  | [] => EmptyString
  | [p] => p
  | p :: rest => p +:+ sep +:+ join sep rest
  end.

(** [s.lower()] *)
Definition lower (s : string) : string := map_chars lower_char s.

(** [s.replace(old, new)] for one-character [old] and [new]. *)
Definition replace_char (old new : ascii) (s : string) : string :=
  map_chars (fun c => if Ascii.eqb c old then new else c) s.

(** [s.split(sep)] for a one-character separator: never the empty list. *)
Fixpoint split_on_from (sep : ascii) (cur s : string) : list string :=
  match s with
  | EmptyString => [cur]
  | String c s' =>
      if Ascii.eqb c sep then cur :: split_on_from sep EmptyString s'
      else split_on_from sep (cur +:+ String c EmptyString) s'
  end.

Definition split_on (sep : ascii) (s : string) : list string :=
  split_on_from sep EmptyString s.

(** [c in s] for one character. *)
Fixpoint has_char (c : ascii) (s : string) : bool :=
  match s with
  | EmptyString => false
  | String c' s' => Ascii.eqb c c' || has_char c s'
  end.

(** [a in b] on two strings: [a] occurs in [b] as a contiguous block. *)
Fixpoint contains (b a : string) : bool :=
  String.prefix a b
  || match b with
     | EmptyString => false
     | String _ b' => contains b' a
     end.

End PyStr.

(** ** Header Normalizer: [normalize_cols] *)

(** The body of the loop of [normalize_cols], after [str(c)]. *)
Definition normalize_header (s : string) : string :=
  let s := PyStr.strip s in
  let s := PyStr.join " " (PyStr.split_ws s) in
  PyStr.replace_char " " "_" (PyStr.lower s).

(** A character of a word, or the separator that [join] puts between
    words. *)
Definition word_or_space (c : ascii) : bool :=
  negb (PyStr.isspace c) || Ascii.eqb c " ".

(** A character that every step of the normalizer leaves alone. *)
Definition settled (c : ascii) : bool :=
  negb (PyStr.isspace c) && Ascii.eqb (PyStr.lower_char c) c.

(** What [lower] and then [replace(" ", "_")] make of one character. *)
Definition settle (c : ascii) : ascii :=
  (fun c => if Ascii.eqb c " " then "_"%char else c) (PyStr.lower_char c).

Section NormalizeCols.
(** The header values and their [str()]: any type whose values print. *)
Context {V : Type} (py_str : V -> string).

(** [out = []; for c in cols: ...; out.append(s); return out] *)
Definition normalize_cols (cols : list V) : list string :=
  fold_left (fun out c => out ++ [normalize_header (py_str c)]) cols [].
End NormalizeCols.

(** ** Schema Mapper: the first loop of [map_dataframe] *)

Definition TARGET_TABLE : string := "public." +:+ String (ascii_of_nat 34)
  ("TRP" +:+ String (ascii_of_nat 34) EmptyString).

Definition TARGET_COLS : list string :=
  [ "outlet"; "date"; "day"; "guest_count"; "category"; "quantity";
    "cost_price"; "selling_price"; "total_sales"; "total_cost_price";
    "profit" ].

(** [x[0]] and [x[-1]] on the result of [split], which is never empty. *)
Definition first_item (l : list string) : string := List.hd EmptyString l.
Definition last_item (l : list string) : string := List.last l EmptyString.

(** The condition of the [if] inside the approximate-match loop. *)
Definition approx_cond (tgt c : string) : bool :=
  PyStr.contains c tgt
  || PyStr.contains tgt c
  || PyStr.contains c (first_item (PyStr.split_on "_" tgt))
  || PyStr.contains c (last_item (PyStr.split_on "_" tgt)).

(** [for c in df.columns: if ...: col_map[tgt] = c; break] *)
Fixpoint approx_loop (tgt : string) (columns : list string)
    (col_map : gmap string string) : gmap string string :=
  match columns with
  | [] => col_map
  | c :: rest =>
      if approx_cond tgt c then <[tgt := c]> col_map
      else approx_loop tgt rest col_map
  end.

(** One iteration of [for tgt in TARGET_COLS]. *)
Definition mapper_step (columns : list string) (col_map : gmap string string)
    (tgt : string) : gmap string string :=
  if bool_decide (tgt ∈ columns) then <[tgt := tgt]> col_map
  else approx_loop tgt columns col_map.

Definition build_col_map (columns targets : list string) : gmap string string :=
  fold_left (mapper_step columns) targets ∅.

(** *** The Schema Mapper as the specification words it *)

Module MapperSpec.

(** The token before the first underscore of [t] (all of [t] when it has
    none). *)
Fixpoint before_first_underscore (t : string) : string :=
  match t with
  | EmptyString => EmptyString
  | String c t' =>
      if Ascii.eqb c "_" then EmptyString
      else String c (before_first_underscore t')
  end.

Fixpoint has_underscore (t : string) : bool :=
  match t with
  | EmptyString => false
  | String c t' => Ascii.eqb c "_" || has_underscore t'
  end.

(** The token after the last underscore of [t] (all of [t] when it has
    none). *)
Fixpoint after_last_underscore (t : string) : string :=
  match t with
  | EmptyString => EmptyString
  | String c t' =>
      if has_underscore t' then after_last_underscore t'
      else if Ascii.eqb c "_" then t' else t
  end.

(** The four predicates, in the listed order. *)
Definition rule1 (t c : string) : bool := PyStr.contains c t.
Definition rule2 (t c : string) : bool := PyStr.contains t c.
Definition rule3 (t c : string) : bool :=
  PyStr.contains c (before_first_underscore t).
Definition rule4 (t c : string) : bool :=
  PyStr.contains c (after_last_underscore t).

Definition satisfies_some_rule (t c : string) : bool :=
  existsb (fun rule => rule t c) [rule1; rule2; rule3; rule4].

(** Exact match first; otherwise the first header, in column order, that
    passes one of the rules; otherwise unmapped. *)
Definition mapping_of (headers : list string) (t : string) : option string :=
  if bool_decide (t ∈ headers) then Some t
  else List.find (satisfies_some_rule t) headers.

End MapperSpec.

(** ** Values, columns and frames *)

(** A calendar date, as [datetime.date]. *)
Record date := Date { year : nat; month : nat; day : nat }.

(** A decimal number [dec_mant * 10 ^ (- dec_exp)]: the value of a float. *)
Record decimal := Decimal { dec_mant : Z; dec_exp : nat }.

(** The Python values of the pipeline: text, whole number, finite float (by
    the decimal number it is equal to), the three missing markers [nan],
    [pd.NA] and [NaT], a date, and the two infinite floats. *)
Inductive pyval :=
  | PStr (s : string)
  | PInt (z : Z)
  | PFloat (x : decimal)
  | PNaN
  | PNA
  | PNaT
  | PDate (d : date)
  | PInf (negative : bool).

(** [pd.isna]: the absent value of the specification. *)
Definition isna (v : pyval) : bool :=
  match v with
  | PNaN | PNA | PNaT => true
  | _ => false
  end.

(** The exceptions the pipeline can raise. *)
Inductive exn := KeyError | ValueError | TypeError | OverflowError | StoreError.

Inductive result (A : Type) :=
  | Ok (a : A)
  | Raise (e : exn).
Arguments Ok {A} a.
Arguments Raise {A} e.

Definition bind {A B} (r : result A) (k : A -> result B) : result B :=
  match r with
  | Ok a => k a
  | Raise e => Raise e
  end.

Notation "'let?' x ':=' r 'in' k" := (bind r (fun x => k))
  (at level 10, x name, r at level 200, k at level 200).

(** A loop whose body can raise. *)
Fixpoint for_each {A S} (body : S -> A -> result S) (l : list A) (s : S)
    : result S :=
  match l with
  | [] => Ok s
  | a :: rest => let? s' := body s a in for_each body rest s'
  end.

Fixpoint map_result {A B} (f : A -> result B) (l : list A) : result (list B) :=
  match l with
  | [] => Ok []
  | a :: rest => let? b := f a in let? bs := map_result f rest in Ok (b :: bs)
  end.

(** A data frame, column by column, on a range index of [nrows] positions;
    [L] is the type of the column labels. *)
Record frame (L : Type) := Frame {
  nrows : nat;
  cols : list (L * list pyval)
}.
Arguments Frame {L} nrows cols.
Arguments nrows {L} f.
Arguments cols {L} f.

Definition labels {L} (f : frame L) : list L := map fst (cols f).

(** Every column holds one cell per index position. *)
Definition well_formed {L} (f : frame L) : Prop :=
  Forall (fun c => length (snd c) = nrows f) (cols f).

(** [pd.DataFrame()] *)
Definition empty_frame : frame string := Frame 0 [].

(** [df.columns = new_labels] *)
Definition set_columns {L M} (f : frame L) (new_labels : list M)
    : result (frame M) :=
  if (length new_labels =? length (cols f))%nat
  then Ok (Frame (nrows f) (zip_with (fun l c => (l, snd c)) new_labels (cols f)))
  else Raise ValueError.

(** What [df[key]] evaluates to: a Series, or a frame when several columns
    carry the label. *)
Inductive selection :=
  | Series (vals : list pyval)
  | SubFrame (several : list (list pyval)).

Definition getitem (f : frame string) (key : string) : result selection :=
  match filter (fun c => fst c = key) (cols f) with
  | [] => Raise KeyError
  | [c] => Ok (Series (snd c))
  | cs => Ok (SubFrame (map snd cs))
  end.

(** Reindexing a column to [n] positions: missing positions hold [nan]. *)
Definition reindex (n : nat) (vals : list pyval) : list pyval :=
  take n (vals ++ repeat PNaN n).

(** Replace the column labelled [key] in place, or append it. *)
Fixpoint put_col (key : string) (vals : list pyval)
    (cs : list (string * list pyval)) : list (string * list pyval) :=
  match cs with
  | [] => [(key, vals)]
  | c :: rest =>
      if String.eqb (fst c) key then (key, vals) :: rest
      else c :: put_col key vals rest
  end.

(** [out[key] = value] for a Series: a frame without index positions takes
    the positions of a non-empty value, its columns being filled with [nan];
    otherwise the value is aligned on the frame's index. A value of several
    columns cannot be set to one key. *)
Definition setitem (out : frame string) (key : string) (value : selection)
    : result (frame string) :=
  match value with
  | Series vals =>
      if (nrows out =? 0)%nat && (0 <? length vals)%nat
      then let n := length vals in
           Ok (Frame n (put_col key vals
                          (map (fun c => (fst c, reindex n (snd c))) (cols out))))
      else Ok (Frame (nrows out) (put_col key (reindex (nrows out) vals) (cols out)))
  | SubFrame _ => Raise ValueError
  end.

(** [out[key] = scalar]: the scalar at every index position of the frame,
    none when the frame has none. *)
Definition setitem_scalar (out : frame string) (key : string) (v : pyval)
    : frame string :=
  Frame (nrows out) (put_col key (repeat v (nrows out)) (cols out)).

(** [out[key]] where a Series is needed. *)
Definition column (f : frame string) (key : string) : result (list pyval) :=
  let? sel := getitem f key in
  match sel with
  | Series vals => Ok vals
  | SubFrame _ => Raise ValueError
  end.

(** ** Dates and numbers *)

Definition digit_char (n : nat) : ascii := ascii_of_nat (48 + n mod 10).

(** The last [w] decimal digits of [n]. *)
Fixpoint fixed_digits (w n : nat) : string :=
  match w with
  | O => EmptyString
  | S w' => fixed_digits w' (n / 10) +:+ String (digit_char n) EmptyString
  end.

(** ["%0wd" % n] *)
Definition zero_padded (w n : nat) : string :=
  if (n <? 10 ^ w)%nat then fixed_digits w n else pretty n.

(** [date.isoformat()], which is also [str(date)]: ["%04d-%02d-%02d"]. *)
Definition isoformat (d : date) : string :=
  zero_padded 4 (year d) +:+ "-" +:+ zero_padded 2 (month d) +:+ "-"
  +:+ zero_padded 2 (day d).

(** [d.strftime("%d-%m-%Y")]: the day-first text of a date. *)
Definition dmy_text (d : date) : string :=
  zero_padded 2 (day d) +:+ "-" +:+ zero_padded 2 (month d) +:+ "-"
  +:+ zero_padded 4 (year d).

Definition is_leap (y : nat) : bool :=
  ((y mod 4 =? 0) && negb (y mod 100 =? 0) || (y mod 400 =? 0))%nat.

Definition days_in_month (y m : nat) : nat :=
  match m with
  | 1 | 3 | 5 | 7 | 8 | 10 | 12 => 31
  | 4 | 6 | 9 | 11 => 30
  | 2 => if is_leap y then 29 else 28
  | _ => 0
  end.

(** What [datetime.date] accepts: [MINYEAR = 1], [MAXYEAR = 9999]. *)
Definition valid_date (d : date) : bool :=
  ((1 <=? year d) && (year d <? 10 ^ 4) && (1 <=? month d) && (month d <=? 12)
   && (1 <=? day d) && (day d <=? days_in_month (year d) (month d)))%nat.

(** [a <= b] on dates. *)
Definition date_leb (a b : date) : bool :=
  ((year a <? year b)
   || ((year a =? year b)
       && ((month a <? month b)
           || ((month a =? month b) && (day a <=? day b)))))%nat.

(** The days whose midnight a [datetime64[ns]] timestamp holds: from
    1677-09-22 to 2262-04-11 ([Timestamp.min] is 1677-09-21 00:12:43.145224193
    and [Timestamp.max] is 2262-04-11 23:47:16.854775807). *)
Definition in_timestamp_range (d : date) : bool :=
  date_leb (Date 1677 9 22) d && date_leb d (Date 2262 4 11).

(** *** The patterns of [strptime] *)

Definition digit_of (c : ascii) : option nat :=
  let n := nat_of_ascii c in
  if ((48 <=? n) && (n <=? 57))%nat then Some (n - 48) else None.

(** The value of a string of decimal digits, after the digits [acc]. *)
Fixpoint digits_value (acc : nat) (s : string) : option nat :=
  match s with
  | EmptyString => Some acc
  | String c s' =>
      match digit_of c with
      | Some k => digits_value (10 * acc + k) s'
      | None => None
      end
  end.

Definition is_Some_b {A} (o : option A) : bool :=
  match o with Some _ => true | None => false end.

Definition parse_nat (s : string) : option nat :=
  if PyStr.is_empty s then None else digits_value 0 s.

(** A token of one or two digits whose number lies between 1 and [hi]: the
    month and day patterns of [strptime]. *)
Definition small_number (hi : nat) (tok : string) : option nat :=
  if (String.length tok <=? 2)%nat
  then match parse_nat tok with
       | Some n => if ((1 <=? n) && (n <=? hi))%nat then Some n else None
       | None => None
       end
  else None.

(** The day pattern also accepts a space before a single digit. *)
Definition day_number (tok : string) : option nat :=
  match tok with
  | String " " rest =>
      if (String.length rest =? 1)%nat then small_number 9 rest else None
  | _ => small_number 31 tok
  end.

(** The format that pandas guesses from the text 05-03-2024 when
    [dayfirst=True]. *)
Definition dmy_format : string := "%d-%m-%Y".

(** One text under the format [%d-%m-%Y] with [exact=True], as the
    [array_strptime] of pandas reads it, [None] where [errors="coerce"] puts
    [NaT]: the whole text is a day, a month and a year of four digits between
    dashes; the date exists; its timestamp is within bounds. *)
Definition strptime_dmy (s : string) : option date :=
  match PyStr.split_on "-" s with
  | [d; m; y] =>
      if (String.length y =? 4)%nat
      then match day_number d, small_number 12 m, parse_nat y with
           | Some d, Some m, Some y =>
               let dt := Date y m d in
               if valid_date dt && in_timestamp_range dt then Some dt else None
           | _, _, _ => None
           end
      else None
  | _ => None
  end.

(** A text DD-MM-YYYY, with two digits for the day and for the month, of a
    date that exists and that a timestamp holds. *)
Definition is_dmy (s : string) : bool :=
  match strptime_dmy s with
  | Some d => String.eqb s (dmy_text d)
  | None => false
  end.

(** *** Numbers *)

(** The result of a numeric parse: a whole number, a finite float or an
    infinite one. *)
Inductive number :=
  | NumInt (z : Z)
  | NumFloat (x : decimal)
  | NumInf (negative : bool).

Definition is_int (n : option number) : bool :=
  match n with Some (NumInt _) => true | _ => false end.

(** A float with no fractional part, and its whole value. *)
Definition is_integral (x : decimal) : bool :=
  (dec_mant x mod 10 ^ Z.of_nat (dec_exp x) =? 0)%Z.

Definition whole_part (x : decimal) : Z :=
  (dec_mant x / 10 ^ Z.of_nat (dec_exp x))%Z.

(** [x <= y] on floats. *)
Definition dec_leb (x y : decimal) : bool :=
  (dec_mant x * 10 ^ Z.of_nat (dec_exp y)
   <=? dec_mant y * 10 ^ Z.of_nat (dec_exp x))%Z.

(** The values of [int64] and of [uint64]. *)
Definition in_int64 (z : Z) : bool := ((- 2 ^ 63 <=? z) && (z <? 2 ^ 63))%Z.
Definition in_uint64 (z : Z) : bool := ((0 <=? z) && (z <? 2 ^ 64))%Z.

Definition fits (range : Z -> bool) (n : option number) : bool :=
  match n with Some (NumInt z) => range z | _ => true end.

(** ** The pandas calls whose text parsing is not part of this repository *)

(** What the pipeline takes from pandas and Python without fixing it:
    - [guess_datetime_format]: the format that
      [pd.to_datetime(., dayfirst=True)] guesses for a column whose first
      present cell is a text other than DD-MM-YYYY, [None] when it guesses
      none and parses each cell on its own;
    - [strptime]: one text under a guessed format other than [%d-%m-%Y],
      [None] for [NaT];
    - [to_datetime_text]: one text parsed on its own ([dayfirst=True],
      [errors="coerce"]), [None] for [NaT];
    - [to_datetime_number]: the same for a numeric cell;
    - [to_numeric_text]: [pd.to_numeric(., errors="coerce")] on a text cell,
      [None] for [nan];
    - [float_of_int]: the float of a whole number in a [float64] column;
    - [float_repr]: [str] of a float;
    - [linesep]: [os.linesep], the line terminator of [to_csv]. *)
Record library := Library {
  guess_datetime_format : list pyval -> option string;
  strptime : string -> string -> option date;
  to_datetime_text : string -> option date;
  to_datetime_number : decimal -> option date;
  to_numeric_text : string -> option number;
  float_of_int : Z -> decimal;
  float_repr : decimal -> string;
  linesep : string
}.

Section Pipeline.
Context (lib : library).

(** [str(v)] *)
Definition py_str (v : pyval) : string :=
  match v with
  | PStr s => s
  | PInt z => pretty z
  | PFloat x => float_repr lib x
  | PNaN => "nan"
  | PNA => "<NA>"
  | PNaT => "NaT"
  | PDate d => isoformat d
  | PInf negative => if negative then "-inf" else "inf"
  end.

(** *** The date column: [pd.to_datetime(col, dayfirst=True,
        errors="coerce").dt.date] *)

(** A date in a column of timestamps: kept when a timestamp holds it;
    otherwise [errors="coerce"] puts [NaT]. *)
Definition timestamp_date (d : date) : pyval :=
  if in_timestamp_range d then PDate d else PNaT.

(** What a parse gives in the column: its date, or [NaT] when it fails. *)
Definition date_or_NaT (o : option date) : pyval :=
  match o with Some d => timestamp_date d | None => PNaT end.

(** The first cell of the column that is not missing. *)
Fixpoint first_present (vals : list pyval) : option pyval :=
  match vals with
  | [] => None
  | v :: rest => if isna v then first_present rest else Some v
  end.

(** The format of the column. pandas guesses it from the first present cell
    when that cell is a text: a text DD-MM-YYYY gives [%d-%m-%Y]. A column
    that starts with a number or a date, or that is all missing, has no
    format. *)
Definition datetime_format (vals : list pyval) : option string :=
  match first_present vals with
  | Some (PStr s) =>
      if is_dmy s then Some dmy_format else guess_datetime_format lib vals
  | _ => None
  end.

Definition parse_with (fmt s : string) : option date :=
  if String.eqb fmt dmy_format then strptime_dmy s else strptime lib fmt s.

(** One cell of a column that has a format: the text of the cell must match
    the format, and a number is read by its text. *)
Definition strptime_cell (fmt : string) (v : pyval) : pyval :=
  match v with
  | PStr s => date_or_NaT (parse_with fmt s)
  | PInt _ | PFloat _ | PInf _ => date_or_NaT (parse_with fmt (py_str v))
  | PDate d => timestamp_date d
  | PNaN | PNA | PNaT => PNaT
  end.

(** One cell of a column that has no format: each cell is parsed on its
    own. *)
Definition parse_cell (v : pyval) : pyval :=
  match v with
  | PStr s => date_or_NaT (to_datetime_text lib s)
  | PInt z => date_or_NaT (to_datetime_number lib (Decimal z 0))
  | PFloat x => date_or_NaT (to_datetime_number lib x)
  | PDate d => timestamp_date d
  | PInf _ | PNaN | PNA | PNaT => PNaT
  end.

(** The whole call, on the column: the timestamps are whole days here, so
    [.dt.date] keeps them. *)
Definition to_datetime_date (vals : list pyval) : list pyval :=
  match datetime_format vals with
  | Some fmt => map (strptime_cell fmt) vals
  | None => map parse_cell vals
  end.

(** *** The numeric columns *)

Definition to_numeric_cell (v : pyval) : option number :=
  match v with
  | PStr s => to_numeric_text lib s
  | PInt z => Some (NumInt z)
  | PFloat x => Some (NumFloat x)
  | PInf negative => Some (NumInf negative)
  | PNaN | PNA | PNaT | PDate _ => None
  end.

(** [pd.to_numeric(col, errors="coerce")]: a column of whole numbers when
    every cell is one and they all fit [int64], or all fit [uint64]; else a
    [float64] column, where a whole number is rounded to a float and a cell
    that does not parse is [nan]. *)
Definition to_numeric (vals : list pyval) : list pyval :=
  let ns := map to_numeric_cell vals in
  if forallb is_int ns
     && (forallb (fits in_int64) ns || forallb (fits in_uint64) ns)
  then map (fun n => match n with Some (NumInt z) => PInt z | _ => PNaN end) ns
  else map (fun n => match n with
                     | Some (NumInt z) => PFloat (float_of_int lib z)
                     | Some (NumFloat x) => PFloat x
                     | Some (NumInf negative) => PInf negative
                     | None => PNaN
                     end) ns.

(** The largest finite float of a column. *)
Fixpoint largest (vals : list pyval) : option decimal :=
  match vals with
  | [] => None
  | PFloat x :: rest =>
      match largest rest with
      | Some y => Some (if dec_leb x y then y else x)
      | None => Some x
      end
  | _ :: rest => largest rest
  end.

Definition has_inf (negative : bool) (vals : list pyval) : bool :=
  existsb (fun v => match v with
                    | PInf n => Bool.eqb n negative
                    | _ => false
                    end) vals.

(** [.astype("Int64")] on a float column starts with [int()] of its largest
    cell, which raises [OverflowError] on an infinity; when that cell has a
    fractional part, every cell goes through [int()], which raises it on
    minus infinity too. *)
Definition overflows (vals : list pyval) : bool :=
  if has_inf false vals then true
  else if has_inf true vals
       then match largest vals with
            | Some m => negb (is_integral m)
            | None => true
            end
       else false.

(** [.astype("Int64")] on one cell of a numeric column: [nan] becomes
    [pd.NA]; a number is cast when the cast loses nothing, so a float with a
    fractional part or a number outside [int64] cannot be cast safely. *)
Definition astype_Int64_cell (v : pyval) : result pyval :=
  match v with
  | PInt z => if in_int64 z then Ok (PInt z) else Raise TypeError
  | PFloat x =>
      if is_integral x && in_int64 (whole_part x) then Ok (PInt (whole_part x))
      else Raise TypeError
  | PNaN | PNA => Ok PNA
  | _ => Raise TypeError
  end.

Definition astype_Int64 (vals : list pyval) : result (list pyval) :=
  if overflows vals then Raise OverflowError
  else map_result astype_Int64_cell vals.

(** *** The text columns *)

(** [.astype(str).str.strip().replace({"nan": pd.NA})] on one cell. *)
Definition clean_text (v : pyval) : pyval :=
  let s := PyStr.strip (py_str v) in
  if String.eqb s "nan" then PNA else PStr s.

(** [out[c] = f(out[c])] *)
Definition update_column (f : list pyval -> result (list pyval))
    (out : frame string) (c : string) : result (frame string) :=
  let? vals := column out c in
  let? vals' := f vals in
  setitem out c (Series vals').

(** The second loop of [map_dataframe]: [out[tgt] = df[src]] or [pd.NA]. *)
Definition build_step (df : frame string) (col_map : gmap string string)
    (out : frame string) (tgt : string) : result (frame string) :=
  match col_map !! tgt with
  | Some src => let? sel := getitem df src in setitem out tgt sel
  | None => Ok (setitem_scalar out tgt PNA)
  end.

Definition map_dataframe (df : frame pyval) : result (frame string) :=
  let? df := set_columns df (normalize_cols py_str (labels df)) in
  let col_map := build_col_map (labels df) TARGET_COLS in
  let? out := for_each (build_step df col_map) TARGET_COLS empty_frame in
  let? out := update_column (fun v => Ok (to_datetime_date v)) out "date" in
  let? out := for_each (update_column (fun v => astype_Int64 (to_numeric v)))
                ["guest_count"; "quantity"] out in
  let? out := for_each (update_column (fun v => Ok (to_numeric v)))
                ["cost_price"; "selling_price"; "total_sales";
                 "total_cost_price"; "profit"] out in
  let? out := for_each (update_column (fun v => Ok (map clean_text v)))
                ["outlet"; "day"; "category"] out in
  Ok out.

(** *** Bulk Loader: [df.to_csv(buf, index=False, header=True, ...)] *)

Definition dquote : ascii := ascii_of_nat 34.

Fixpoint double_quotes (s : string) : string :=
  match s with
  | EmptyString => EmptyString
  | String c s' =>
      if Ascii.eqb c dquote then String c (String c (double_quotes s'))
      else String c (double_quotes s')
  end.

(** A character that makes the [csv] writer quote a field: the delimiter,
    the quote character and the characters of the line terminator. *)
Definition csv_special (c : ascii) : bool :=
  Ascii.eqb c "," || Ascii.eqb c dquote || PyStr.has_char c (linesep lib).

(** Minimal quoting of the [csv] writer. *)
Definition csv_quote (s : string) : string :=
  if PyStr.all_chars (fun c => negb (csv_special c)) s
  then s else String dquote (double_quotes s +:+ String dquote EmptyString).

(** One field: a missing value is the empty [na_rep]; [date_format] only
    touches [datetime64] columns, a [datetime.date] is written by [str]. *)
Definition csv_field (v : pyval) : string :=
  if isna v then EmptyString else csv_quote (py_str v).

Definition csv_line (fields : list string) : string :=
  match fields with
  | [f] => if PyStr.is_empty f then String dquote (String dquote EmptyString)
           else f
  | _ => PyStr.join "," fields
  end +:+ linesep lib.

Definition row_at (f : frame string) (i : nat) : list pyval :=
  map (fun c => default PNaN (snd c !! i)) (cols f).

Definition to_csv (f : frame string) : string :=
  csv_line (map csv_quote (labels f))
  +:+ String.concat EmptyString
        (map (fun i => csv_line (map csv_field (row_at f i))) (seq 0 (nrows f))).

(** [f"COPY {table}({', '.join(cols)}) FROM STDIN WITH CSV HEADER"] *)
Definition copy_sql (table : string) (cols : list string) : string :=
  "COPY " +:+ table +:+ "(" +:+ PyStr.join ", " cols
  +:+ ") FROM STDIN WITH CSV HEADER".
End Pipeline.

(** ** The connection to the store *)

Section Store.
(** The rows of the target table, and the store's answer to a bulk-ingest
    command: the rows it loads, or [None] when it rejects the command. *)
Context {R : Type} (store_copy : string -> string -> option (list R)).

Inductive event :=
  | EvCopy (sql payload : string)
  | EvCommit
  | EvClose.

(** A connection: the committed table, the rows of the open transaction,
    whether that transaction is aborted, and what was sent so far. *)
Record connection := Conn {
  committed : list R;
  pending : list R;
  aborted : bool;
  log : list event
}.

Definition connect (table : list R) : connection := Conn table [] false [].

(** [cur.copy_expert(sql, buf)] *)
Definition copy_expert (sql payload : string) (conn : connection)
    : result unit * connection :=
  let log' := log conn ++ [EvCopy sql payload] in
  match store_copy sql payload with
  | Some rows =>
      if aborted conn then (Raise StoreError, Conn (committed conn) (pending conn) true log')
      else (Ok tt, Conn (committed conn) (pending conn ++ rows) false log')
  | None => (Raise StoreError, Conn (committed conn) (pending conn) true log')
  end.

(** [conn.commit()]: an aborted transaction is rolled back. *)
Definition commit (conn : connection) : result unit * connection :=
  (Ok tt, Conn (if aborted conn then committed conn
                else committed conn ++ pending conn)
               [] false (log conn ++ [EvCommit])).

(** [conn.close()]: the open transaction is dropped. *)
Definition close (conn : connection) : connection :=
  Conn (committed conn) [] false (log conn ++ [EvClose]).

Context (lib : library).

Definition copy_df_to_postgres (df : frame string) (conn : connection)
    (table : string) (cols : list string) : result unit * connection :=
  let buf := to_csv lib df in
  let sql := copy_sql table cols in
  match copy_expert sql buf conn with
  | (Ok _, conn') => commit conn'
  | (Raise e, conn') => (Raise e, conn')
  end.

(** The [try: ... finally: conn.close()] of [main]. *)
Definition load (df : frame string) (table0 : list R)
    : result unit * connection :=
  let (r, conn) := copy_df_to_postgres df (connect table0) TARGET_TABLE TARGET_COLS in
  (r, close conn).
End Store.

(** ** Reading a payload *)

(** What a CSV text holds, by the rules that [COPY ... WITH CSV] reads it
    with: a quote character opens and closes a quoted section, inside which
    a doubled quote stands for one; a comma outside quotes ends a field; a
    line feed outside quotes ends a record; the records end with LF or with
    CR LF, as the first one does, and no other carriage return stands
    outside quotes; a field that is empty and holds no quote is the null
    value. *)
Module Csv.

Definition LF : ascii := ascii_of_nat 10.
Definition CR : ascii := ascii_of_nat 13.

(** The lines of a text; [inq] tells whether a quoted section is open, [cur]
    is the line being read. *)
Fixpoint lines_from (inq : bool) (cur s : string) : list string :=
  match s with
  | EmptyString => if PyStr.is_empty cur then [] else [cur]
  | String c s' =>
      if Ascii.eqb c dquote
      then lines_from (negb inq) (cur +:+ String c EmptyString) s'
      else if Ascii.eqb c LF && negb inq
           then cur :: lines_from false EmptyString s'
           else lines_from inq (cur +:+ String c EmptyString) s'
  end.

(** Whether a quoted section is open after [s]. *)
Fixpoint parity (inq : bool) (s : string) : bool :=
  match s with
  | EmptyString => inq
  | String c s' => parity (if Ascii.eqb c dquote then negb inq else inq) s'
  end.

(** Whether [c] stands outside quotes somewhere in [s]. *)
Fixpoint unquoted (c : ascii) (inq : bool) (s : string) : bool :=
  match s with
  | EmptyString => false
  | String c' s' =>
      if Ascii.eqb c' dquote then unquoted c (negb inq) s'
      else (Ascii.eqb c' c && negb inq) || unquoted c inq s'
  end.

(** The value of a field: null when it is empty and was never quoted. *)
Definition field_value (saw_quote : bool) (text : string) : option string :=
  if saw_quote || negb (PyStr.is_empty text) then Some text else None.

(** The fields of a line; [saw] tells whether the field being read held a
    quote, [cur] is its text so far. An open quoted section at the end of
    the line is an error. *)
Fixpoint fields_from (inq saw : bool) (cur s : string)
    : option (list (option string)) :=
  match s with
  | EmptyString => if inq then None else Some [field_value saw cur]
  | String c s' =>
      if inq
      then if Ascii.eqb c dquote
           then match s' with
                | String c' s'' =>
                    if Ascii.eqb c' dquote
                    then fields_from true saw (cur +:+ String c' EmptyString) s''
                    else fields_from false saw cur s'
                | EmptyString => fields_from false saw cur s'
                end
           else fields_from true saw (cur +:+ String c EmptyString) s'
      else if Ascii.eqb c dquote then fields_from true true cur s'
      else if Ascii.eqb c ","
           then option_map (cons (field_value saw cur))
                  (fields_from false false EmptyString s')
           else fields_from false saw (cur +:+ String c EmptyString) s'
  end.

Definition fields (line : string) : option (list (option string)) :=
  if unquoted CR false line then None
  else fields_from false false EmptyString line.

Fixpoint last_char (s : string) : option ascii :=
  match s with
  | EmptyString => None
  | String c EmptyString => Some c
  | String _ s' => last_char s'
  end.

Fixpoint drop_last (s : string) : string :=
  match s with
  | EmptyString => EmptyString
  | String c EmptyString => EmptyString
  | String c s' => String c (drop_last s')
  end.

Definition ends_with_cr (s : string) : bool :=
  match last_char s with
  | Some c => Ascii.eqb c CR
  | None => false
  end.

Fixpoint records (f : string -> option (list (option string)))
    (lines : list string) : option (list (list (option string))) :=
  match lines with
  | [] => Some []
  | l :: rest =>
      match f l, records f rest with
      | Some r, Some rs => Some (r :: rs)
      | _, _ => None
      end
  end.

(** The records of a payload, the header line first; [None] when the
    payload is refused. *)
Definition read (payload : string) : option (list (list (option string))) :=
  let lines := lines_from false EmptyString payload in
  match lines with
  | [] => Some []
  | first :: _ =>
      if ends_with_cr first
      then records (fun l => if ends_with_cr l then fields (drop_last l)
                             else None) lines
      else records fields lines
  end.

End Csv.

(** What the payload holds for a cell: the null value for an absent cell,
    and for a text cell that is empty; the text of the cell otherwise. *)
Definition written (lib : library) (v : pyval) : option string :=
  if isna v then None else Csv.field_value false (py_str lib v).

(** No carriage return in the labels of a table nor in the texts of its
    cells. *)
Definition no_cr (s : string) : bool := negb (PyStr.has_char Csv.CR s).

Definition cr_free (lib : library) (f : frame string) : bool :=
  forallb (fun c => no_cr (fst c)
                    && forallb (fun v => no_cr (py_str lib v)) (snd c))
    (cols f).

(** The line terminators of the platforms: LF, with no carriage return in
    the table that is written, or CR LF. *)
Definition line_ends (lib : library) (f : frame string) : Prop :=
  (linesep lib = String Csv.LF EmptyString /\ cr_free lib f = true)
  \/ linesep lib = String Csv.CR (String Csv.LF EmptyString).

(** A character that the writer leaves outside quotes on every platform. *)
Definition plain_char (c : ascii) : bool :=
  negb (Ascii.eqb c "," || Ascii.eqb c dquote || Ascii.eqb c Csv.LF
        || Ascii.eqb c Csv.CR).

(** A text between quotes, its quotes doubled. *)
Definition quoted (s : string) : string :=
  String dquote (double_quotes s +:+ String dquote EmptyString).

(** A field as the writer puts it, with the value that it stands for. *)
Definition field_of (text : string) (value : option string) : Prop :=
  (PyStr.all_chars plain_char text = true
   /\ value = Csv.field_value false text)
  \/ (exists s, text = quoted s /\ value = Some s).


(** ** A reference instance of the library *)

Module Reference.

(** Modelled from the spec: [pd.to_datetime(., dayfirst=True,
    errors="coerce")] is a pandas call, missing from the sources. The
    specification reads a date cell as a day-first calendar date, in the
    order day, month, year (the code's comment: DD-MM-YYYY), and anything
    else as absent. *)
Definition dayfirst_date (s : string) : option date :=
  match PyStr.split_on "-" (PyStr.strip s) with
  | [d; m; y] =>
      if ((String.length d <=? 2) && (String.length m <=? 2)
          && (String.length y =? 4))%nat
      then match parse_nat d, parse_nat m, parse_nat y with
           | Some d, Some m, Some y =>
               let dt := Date y m d in
               if valid_date dt then Some dt else None
           | _, _, _ => None
           end
      else None
  | _ => None
  end.

(** The date of a number of days since 1970-01-01. *)
Definition civil_from_days (days : Z) : date :=
  let z := (days + 719468)%Z in
  let era := (z / 146097)%Z in
  let doe := (z - era * 146097)%Z in
  let yoe := ((doe - doe / 1460 + doe / 36524 - doe / 146096) / 365)%Z in
  let doy := (doe - (365 * yoe + yoe / 4 - yoe / 100))%Z in
  let mp := ((5 * doy + 2) / 153)%Z in
  let d := (doy - (153 * mp + 2) / 5 + 1)%Z in
  let m := (if mp <? 10 then mp + 3 else mp - 9)%Z in
  let y := (yoe + era * 400 + (if m <=? 2 then 1 else 0))%Z in
  Date (Z.to_nat y) (Z.to_nat m) (Z.to_nat d).

(** [pd.to_datetime] on a number: nanoseconds since 1970-01-01, [NaT] when
    an [int64] does not hold them. *)
Definition epoch_nanoseconds (x : decimal) : option date :=
  let ns := (dec_mant x ÷ 10 ^ Z.of_nat (dec_exp x))%Z in
  if in_int64 ns && negb (ns =? - 2 ^ 63)%Z
  then Some (civil_from_days (ns / 86400000000000)%Z)
  else None.

Definition negate (n : number) : number :=
  match n with
  | NumInt z => NumInt (- z)
  | NumFloat x => NumFloat (Decimal (- dec_mant x) (dec_exp x))
  | NumInf negative => NumInf (negb negative)
  end.

Definition unsigned_number (s : string) : option number :=
  match PyStr.split_on "." s with
  | [i] => if String.eqb i "inf" then Some (NumInf false)
           else match parse_nat i with
                | Some n => Some (NumInt (Z.of_nat n))
                | None => None
                end
  | [i; f] =>
      if PyStr.is_empty i && PyStr.is_empty f then None
      else match digits_value 0 i, digits_value 0 f with
           | Some n, Some k =>
               Some (NumFloat (Decimal (Z.of_nat (n * 10 ^ String.length f + k))
                                       (String.length f)))
           | _, _ => None
           end
  | _ => None
  end.

(** Modelled from the spec: [pd.to_numeric(., errors="coerce")] is a pandas
    call, missing from the sources. The specification parses a whole number,
    or a real number with its full decimal precision, and reads anything
    else (a blank cell too) as absent; the text inf is the infinite float. *)
Definition decimal_number (s : string) : option number :=
  match PyStr.strip s with
  | String "-" s' => negate <$> unsigned_number s'
  | String "+" s' => unsigned_number s'
  | s' => unsigned_number s'
  end.

(** [float(z)] for a whole number below [2 ^ 1024]: the nearest number of 53
    bits, a tie going to the even one. *)
Definition nearest_float (z : Z) : decimal :=
  let a := Z.abs z in
  let k := (Z.log2 a - 52)%Z in
  if (k <=? 0)%Z then Decimal z 0
  else
    let q := (a / 2 ^ k)%Z in
    let r := (a mod 2 ^ k)%Z in
    let half := (2 ^ (k - 1))%Z in
    let up := ((half <? r) || ((r =? half) && Z.odd q))%Z in
    Decimal (Z.sgn z * ((if up then q + 1 else q) * 2 ^ k)) 0.

Fixpoint rstrip_zeros (s : string) : string :=
  match s with
  | EmptyString => EmptyString
  | String c s' =>
      let r := rstrip_zeros s' in
      if PyStr.is_empty r && Ascii.eqb c "0" then EmptyString else String c r
  end.

Fixpoint zeros (n : nat) : string :=
  match n with
  | O => EmptyString
  | S n' => String "0" (zeros n')
  end.

(** [repr] of a float, from the digits of its shortest decimal numeral:
    positional when the decimal point falls within the digits or up to
    three zeros before them and sixteen digits in all, with an exponent
    otherwise. The decimal given is taken for that shortest numeral. *)
Definition python_repr (x : decimal) : string :=
  let m := Z.abs (dec_mant x) in
  let sign := if (dec_mant x <? 0)%Z then "-" else "" in
  if (m =? 0)%Z then "0.0"
  else
    let all := pretty m in
    let decpt := (Z.of_nat (String.length all) - Z.of_nat (dec_exp x))%Z in
    let ds := rstrip_zeros all in
    let k := String.length ds in
    sign +:+
    (if ((-4 <? decpt) && (decpt <=? 16))%Z
     then if (decpt <=? 0)%Z then "0." +:+ zeros (Z.to_nat (- decpt)) +:+ ds
          else if (Z.of_nat k <=? decpt)%Z
               then ds +:+ zeros (Z.to_nat decpt - k) +:+ ".0"
               else substring 0 (Z.to_nat decpt) ds +:+ "."
                    +:+ substring (Z.to_nat decpt) (k - Z.to_nat decpt) ds
     else substring 0 1 ds
          +:+ (if (1 <? k)%nat then "." +:+ substring 1 (k - 1) ds else "")
          +:+ "e" +:+ (if (decpt - 1 <? 0)%Z then "-" else "+")
          +:+ zero_padded 2 (Z.abs_nat (decpt - 1))).

(** Modelled from the spec: an instance of the library for the examples.
    Where the embedding does not pin pandas, it takes the specification at
    its word: a column whose first text is not DD-MM-YYYY gets no format
    and each of its texts is read day first, month second, year last; a
    numeric text is a decimal numeral read in full. The platform is one
    whose line terminator is LF. *)
Definition lib : library := {|
  guess_datetime_format := fun _ => None;
  strptime := fun _ _ => None;
  to_datetime_text := dayfirst_date;
  to_datetime_number := epoch_nanoseconds;
  to_numeric_text := decimal_number;
  float_of_int := nearest_float;
  float_repr := python_repr;
  linesep := String Csv.LF EmptyString
|}.

End Reference.

(** ** Date texts *)


(** A digit or a dash. *)
Definition date_char (c : ascii) : bool :=
  is_Some_b (digit_of c) || Ascii.eqb c "-".


(** ** Example tables *)

Module Examples.

(** A sheet whose quantity cell is the number 2.5. *)
Definition fractional_quantity : frame pyval := Frame 1
  [ (PStr "Outlet", [PStr "A"]);
    (PStr "Date", [PStr "05-03-2024"]);
    (PStr "Quantity", [PFloat (Decimal 25 1)]) ].

(** Scenario 5 of the specification: the headers Outlet, Date and Qty. *)
Definition outlet_date_qty : frame pyval := Frame 1
  [ (PStr "Outlet", [PStr "A"]);
    (PStr "Date", [PStr "05-03-2024"]);
    (PStr "Qty", [PInt 3]) ].

(** A sheet of one row whose only header matches no target column. *)
Definition unrelated_header : frame pyval := Frame 1
  [ (PStr "Foo", [PInt 1]) ].

End Examples.

(** ** The ingestion run: [main] *)

Section Main.
Context {R : Type} (store_copy : string -> string -> option (list R)).
Context (lib : library).

(** [main], from the sheet read by [pd.read_excel]: the coercion comes
    first, the connection is opened after it. The result, the committed
    table and what was sent to the store. *)
Definition main (df_raw : frame pyval) (table0 : list R)
    : result unit * list R * list event :=
  match map_dataframe lib df_raw with
  | Raise e => (Raise e, table0, [])
  | Ok df =>
      let (r, conn) := load store_copy lib df table0 in
      (r, committed conn, log conn)
  end.
End Main.

(** ** Reading the integer cast cell by cell *)

(** A cell that parses as a number with a fractional part. *)
Definition is_fractional (lib : library) (v : pyval) : bool :=
  match to_numeric_cell lib v with
  | Some (NumFloat x) => negb (is_integral x)
  | _ => false
  end.

(** The whole number of a cell, [pd.NA] when it does not parse. *)
Definition whole_or_NA (lib : library) (v : pyval) : pyval :=
  match to_numeric_cell lib v with
  | Some (NumInt z) => PInt z
  | Some (NumFloat x) => PInt (whole_part x)
  | Some (NumInf _) | None => PNA
  end.

(** A cell that the two calls read without rounding: one that does not
    parse, a whole number of at most 53 bits, which a float holds, or a
    finite float that has a fractional part or lies within [int64]. *)
Definition plain_number (lib : library) (v : pyval) : bool :=
  match to_numeric_cell lib v with
  | Some (NumInt z) => (Z.abs z <? 2 ^ 53)%Z
  | Some (NumFloat x) => negb (is_integral x) || in_int64 (whole_part x)
  | Some (NumInf _) => false
  | None => true
  end.

(** How many of the labels are [c]. *)
Definition occurrences (c : string) (ls : list string) : nat :=
  length (filter (fun l => l = c) ls).

(** ** More example tables *)

Module MoreExamples.

(** Two headers of the sheet that normalize to the same label. *)
Definition two_date_headers : frame pyval := Frame 1
  [ (PStr "Date", [PStr "05-03-2024"]);
    (PStr " date ", [PStr "06-03-2024"]) ].


(** Two sheets that differ in their category cell only: a blank text in
    the one, a missing value in the other. *)
Definition blank_category : frame pyval := Frame 1
  [ (PStr "Outlet", [PStr "A"]);
    (PStr "Category", [PStr "  "]) ].

Definition missing_category : frame pyval := Frame 1
  [ (PStr "Outlet", [PStr "A"]);
    (PStr "Category", [PNaN]) ].

End MoreExamples.

(** ** The API over the target table: [app_basic_auth.py] *)

Module Api.

(** The Python values that travel between the store, the handlers and the
    JSON answers: [None], whole numbers, texts, floats, dates and the
    [Decimal] that a NUMERIC column reads as. *)
Inductive value :=
  | VNone
  | VInt (z : Z)
  | VStr (s : string)
  | VFloat (x : decimal)
  | VDate (d : date)
  | VDecimal (x : decimal).

(** [v is None] *)
Definition is_None (v : value) : bool :=
  match v with VNone => true | _ => false end.

(** A Python dictionary with text keys, in insertion order. *)
Fixpoint dict_set {A} (k : string) (v : A) (d : list (string * A))
    : list (string * A) :=
  match d with
  | [] => [(k, v)]
  | kv :: rest =>
      if String.eqb (fst kv) k then (k, v) :: rest
      else kv :: dict_set k v rest
  end.

Fixpoint dict_get {A} (k : string) (d : list (string * A)) : option A :=
  match d with
  | [] => None
  | kv :: rest => if String.eqb (fst kv) k then Some (snd kv) else dict_get k rest
  end.

(** What [row_to_dict] can be given: a SQLAlchemy row, whose [_mapping] is
    read; something else that [dict(row)] accepts; or anything else. *)
Inductive rowlike :=
  | SqlRow (mapping : list (string * value))
  | DictLike (items : list (string * value))
  | Opaque.

Section RowToDict.
(** [float(v)] on a [Decimal]: the nearest float, as the decimal it is. *)
Context (float_of_decimal : decimal -> decimal).

(** The three branches of the loop body of [row_to_dict]. *)
Definition to_json (v : value) : value :=
  match v with
  | VDate d => VStr (isoformat d)
  | VDecimal x => VFloat (float_of_decimal x)
  | v => v
  end.

Definition row_to_dict (row : rowlike) : list (string * value) :=
  let mapping :=
    match row with
    | SqlRow m => m
    | DictLike m => m
    | Opaque => []
    end in
  fold_left (fun out kv => dict_set (fst kv) (to_json (snd kv)) out) mapping [].
End RowToDict.

(** A value that JSON can carry: no date and no [Decimal]. *)
Definition json_safe (v : value) : Prop :=
  match v with
  | VDate _ | VDecimal _ => False
  | _ => True
  end.

(** *** The [date] validator of [TRPBase] *)

(** [datetime.strptime(s, "%Y-%m-%d").date()], [None] when it raises: a
    year of four digits, a month, a day, and a date that exists. *)
Definition strptime_ymd (s : string) : option date :=
  match PyStr.split_on "-" s with
  | [y; m; d] =>
      if (String.length y =? 4)%nat
      then match parse_nat y, small_number 12 m, day_number d with
           | Some y, Some m, Some d =>
               let dt := Date y m d in
               if valid_date dt then Some dt else None
           | _, _, _ => None
           end
      else None
  | _ => None
  end.

(** [parse_date(cls, v)] *)
Definition parse_date (v : value) : result value :=
  match v with
  | VNone => Ok VNone
  | VStr s =>
      match strptime_ymd s with
      | Some d => Ok (VDate d)
      | None => Raise ValueError
      end
  | v => Ok v
  end.

(** *** The handlers *)

(** What the store can raise when a statement writes a row: a constraint of
    the table is violated, or a value does not fit its column. *)
Inductive db_error := IntegrityError | DataError.

(** What a handler answers: a body, an [HTTPException], or an exception
    that it does not catch. *)
Inductive response (A : Type) :=
  | Success (body : A)
  | HttpError (status : nat) (detail : string)
  | Unhandled (e : db_error).
Arguments Success {A} body.
Arguments HttpError {A} status detail.
Arguments Unhandled {A} e.

(** The table: the columns of a row, other than [id], under its key. *)
Abbreviation table := (gmap Z (list (string * value))).

Section Handlers.
Context (float_of_decimal : decimal -> decimal).
(** What the store keeps of a value written to a column. *)
Context (adapt : string -> value -> value).
(** The store on a row that is written: the error it raises, or [None] when
    it takes the row. *)
Context (store_error : list (string * value) -> option db_error).
(** The key that the store gives to a new row. *)
Context (next_id : gmap Z (list (string * value)) -> Z).
Context (integrity_detail : string).

(** [fetch_trp_by_id] *)
Definition fetch_trp_by_id (db : table) (item_id : Z)
    : option (list (string * value)) :=
  match db !! item_id with
  | None => None
  | Some fields =>
      Some (row_to_dict float_of_decimal (SqlRow (("id", VInt item_id) :: fields)))
  end.

(** [not row] on the answer of [fetch_trp_by_id]. *)
Definition falsy (row : option (list (string * value))) : bool :=
  match row with
  | None | Some [] => true
  | Some _ => false
  end.

(** [get_trp] *)
Definition get_trp (db : table) (item_id : Z)
    : response (list (string * value)) :=
  let row := fetch_trp_by_id db item_id in
  if falsy row then HttpError 404 "Record not found"
  else Success (default [] row).

(** [{k: v for k, v in payload.dict().items() if v is not None}] *)
Definition update_values (payload : gmap string value) : gmap string value :=
  filter (fun kv => is_None (snd kv) = false) payload.

(** [UPDATE ... SET] on one row: the named columns take the new values. *)
Definition sql_update (values : gmap string value)
    (fields : list (string * value)) : list (string * value) :=
  map (fun kv => (fst kv, match values !! fst kv with
                          | Some v => adapt (fst kv) v
                          | None => snd kv
                          end)) fields.

(** [update_trp]: the answer and the table after it. The statement is run
    outside any [try]: what the store raises is not caught, and nothing is
    committed. *)
Definition update_trp (db : table) (item_id : Z) (payload : gmap string value)
    : response (option (list (string * value))) * table :=
  match db !! item_id with
  | None => (HttpError 404 "Record not found", db)
  | Some fields =>
      let values := update_values payload in
      if bool_decide (values = ∅)
      then (HttpError 400 "No fields to update", db)
      else
        let fields' := sql_update values fields in
        match store_error fields' with
        | Some e => (Unhandled e, db)
        | None =>
            let db' := <[item_id := fields']> db in
            (Success (fetch_trp_by_id db' item_id), db')
        end
  end.

(** [delete_trp] *)
Definition delete_trp (db : table) (item_id : Z) : response unit * table :=
  match db !! item_id with
  | None => (HttpError 404 "Record not found", db)
  | Some _ => (Success tt, delete item_id db)
  end.

(** What the store raises on an insert: a key already taken violates the
    primary key. *)
Definition insert_error (db : table) (new_id : Z)
    (fields : list (string * value)) : option db_error :=
  if bool_decide (is_Some (db !! new_id)) then Some IntegrityError
  else store_error fields.

(** [create_trp]: the eleven columns are written from the payload, [None]
    where it has no value; an [IntegrityError] is rolled back and answered
    with 400, any other error of the store is not caught. *)
Definition create_trp (db : table) (payload : gmap string value)
    : response (list (string * value)) * table :=
  let fields :=
    map (fun k => (k, adapt k (default VNone (payload !! k)))) TARGET_COLS in
  let new_id := next_id db in
  match insert_error db new_id fields with
  | Some IntegrityError => (HttpError 400 integrity_detail, db)
  | Some e => (Unhandled e, db)
  | None =>
      let db' := <[new_id := fields]> db in
      let row := fetch_trp_by_id db' new_id in
      if falsy row then (HttpError 500 "Failed to fetch created record", db')
      else (Success (default [] row), db')
  end.
End Handlers.

End Api.

(** * Properties *)

(** ** Header Normalizer *)

Section NormalizerFacts.
Import PyStr.

Lemma settle_settled c : word_or_space c = true -> settled (settle c) = true.
Proof.
  destruct c as [[] [] [] [] [] [] [] []]; vm_compute; intros H;
    first [reflexivity | discriminate H].
Qed.

Lemma settled_not_space c : settled c = true -> isspace c = false.
Proof.
  unfold settled. intros [H _]%andb_true_iff. by apply negb_true_iff.
Qed.

Lemma settled_fixed c : settled c = true -> settle c = c.
Proof.
  destruct c as [[] [] [] [] [] [] [] []]; vm_compute; intros H;
    first [reflexivity | discriminate H].
Qed.

Lemma string_app_cons c (s t : string) :
  String c s +:+ t = String c (s +:+ t).
Proof. reflexivity. Qed.

Lemma string_app_empty_r (s : string) : s +:+ EmptyString = s.
Proof.
  induction s as [|c s IH]; [done|]. by rewrite string_app_cons, IH.
Qed.

Lemma string_app_assoc (a b c : string) : (a +:+ b) +:+ c = a +:+ (b +:+ c).
Proof.
  induction a as [|x a IH]; [done|]. by rewrite !string_app_cons, IH.
Qed.

Lemma all_chars_app p s1 s2 :
  all_chars p (s1 +:+ s2) = all_chars p s1 && all_chars p s2.
Proof.
  induction s1 as [|c s1 IH]; [done|].
  rewrite string_app_cons. simpl. by rewrite IH, andb_assoc.
Qed.

Lemma all_chars_impl (p q : ascii -> bool) s :
  (forall c, p c = true -> q c = true) ->
  all_chars p s = true -> all_chars q s = true.
Proof.
  intros Hpq. induction s as [|c s IH]; simpl; [done|].
  intros [Hc Hs]%andb_true_iff. apply andb_true_iff. auto.
Qed.

(** The words of [split] hold no white space. *)
Lemma split_ws_from_words cur s :
  all_chars (fun c => negb (isspace c)) cur = true ->
  Forall (fun w => all_chars (fun c => negb (isspace c)) w = true)
    (split_ws_from cur s).
Proof.
  revert cur. induction s as [|c s IH]; intros cur Hcur; simpl.
  - destruct (is_empty cur); auto.
  - destruct (isspace c) eqn:Hc.
    + destruct (is_empty cur); [by apply IH | constructor; [done | by apply IH]].
    + apply IH. rewrite all_chars_app, Hcur. simpl. by rewrite Hc.
Qed.

Lemma join_words ws :
  Forall (fun w => all_chars (fun c => negb (isspace c)) w = true) ws ->
  all_chars word_or_space (join " " ws) = true.
Proof.
  induction 1 as [|w ws Hw Hws IH]; [done|].
  assert (Hw' : all_chars word_or_space w = true).
  { revert Hw. apply all_chars_impl. intros c Hc. unfold word_or_space.
    by rewrite Hc. }
  destruct ws as [|w' ws]; [done|].
  change (join " " (w :: w' :: ws)) with (w +:+ " " +:+ join " " (w' :: ws)).
  rewrite !all_chars_app, Hw', IH. done.
Qed.

Lemma map_chars_all (f : ascii -> ascii) (p q : ascii -> bool) s :
  (forall c, p c = true -> q (f c) = true) ->
  all_chars p s = true -> all_chars q (map_chars f s) = true.
Proof.
  intros Hf. induction s as [|c s IH]; simpl; [done|].
  intros [Hc Hs]%andb_true_iff. apply andb_true_iff. auto.
Qed.

Lemma map_chars_map_chars f g s :
  map_chars f (map_chars g s) = map_chars (fun c => f (g c)) s.
Proof. induction s as [|c s IH]; simpl; [done|]. by rewrite IH. Qed.

Lemma map_chars_fixed (f : ascii -> ascii) (p : ascii -> bool) s :
  (forall c, p c = true -> f c = c) ->
  all_chars p s = true -> map_chars f s = s.
Proof.
  intros Hf. induction s as [|c s IH]; simpl; [done|].
  intros [Hc Hs]%andb_true_iff. by rewrite Hf, IH.
Qed.

(** The last two steps of the normalizer are one pass of [settle]. *)
Lemma replace_lower s : replace_char " " "_" (lower s) = map_chars settle s.
Proof. unfold replace_char, lower. by rewrite map_chars_map_chars. Qed.

(** Every character of a normalized header is settled. *)
Lemma normalize_header_settled s :
  all_chars settled (normalize_header s) = true.
Proof.
  unfold normalize_header. rewrite replace_lower.
  apply map_chars_all with (p := word_or_space); [apply settle_settled|].
  apply join_words, split_ws_from_words. done.
Qed.

Lemma lstrip_settled s : all_chars settled s = true -> lstrip s = s.
Proof.
  destruct s as [|c s]; simpl; [done|].
  intros [Hc _]%andb_true_iff. by rewrite (settled_not_space c Hc).
Qed.

Lemma rstrip_settled s : all_chars settled s = true -> rstrip s = s.
Proof.
  induction s as [|c s IH]; simpl; [done|].
  intros [Hc Hs]%andb_true_iff.
  rewrite IH, (settled_not_space c Hc), andb_false_r; done.
Qed.

Lemma split_ws_from_settled cur s :
  all_chars settled s = true ->
  split_ws_from cur s = if is_empty (cur +:+ s) then [] else [cur +:+ s].
Proof.
  revert cur. induction s as [|c s IH]; intros cur.
  - rewrite string_app_empty_r. done.
  - cbn [all_chars split_ws_from].
    intros [Hc Hs]%andb_true_iff. rewrite (settled_not_space c Hc).
    rewrite IH by done. rewrite string_app_assoc. done.
Qed.

(** A string of settled characters is a fixed point of the normalizer. *)
Lemma normalize_header_fixed s :
  all_chars settled s = true -> normalize_header s = s.
Proof.
  intros Hs. unfold normalize_header, strip, split_ws.
  rewrite (lstrip_settled s Hs), (rstrip_settled s Hs).
  rewrite (split_ws_from_settled EmptyString s Hs). simpl.
  rewrite replace_lower.
  destruct s as [|c s]; [done|]. cbn [is_empty join].
  apply map_chars_fixed with (p := settled); [apply settled_fixed | done].
Qed.
End NormalizerFacts.

(** C7. Header normalization is idempotent: normalizing a normalized header
    gives the same string as normalizing once. *)
Theorem normalize_header_idempotent (s : string) :
  normalize_header (normalize_header s) = normalize_header s.
Proof. apply normalize_header_fixed, normalize_header_settled. Qed.

Lemma append_loop_is_map {A B} (f : A -> B) (l : list A) (acc : list B) :
  fold_left (fun out c => out ++ [f c]) l acc = acc ++ map f l.
Proof.
  revert acc. induction l as [|a l IH]; intros acc; simpl.
  - by rewrite app_nil_r.
  - rewrite IH, <- app_assoc. done.
Qed.

(** C10. [normalize_cols] is total over header values of any type: each
    value is first rendered by [str], then normalized, and the result has the
    length of the input. *)
Theorem normalize_cols_total {V : Type} (py_str : V -> string) (cols : list V) :
  normalize_cols py_str cols = map (fun c => normalize_header (py_str c)) cols
  /\ length (normalize_cols py_str cols) = length cols.
Proof.
  assert (E : normalize_cols py_str cols
              = map (fun c => normalize_header (py_str c)) cols).
  { unfold normalize_cols.
    by rewrite (append_loop_is_map (fun c => normalize_header (py_str c))). }
  split; [exact E|]. rewrite E. apply length_map.
Qed.

(** ** Schema Mapper *)

Section MapperFacts.
Import PyStr MapperSpec.

Lemma split_on_from_not_nil sep cur s : split_on_from sep cur s <> [].
Proof.
  revert cur. induction s as [|c s IH]; intros cur; simpl; [done|].
  destruct (Ascii.eqb c sep); [done | apply IH].
Qed.

(** [t.split("_")[0]] is the token before the first underscore. *)
Lemma first_item_split cur s :
  first_item (split_on_from "_" cur s) = cur +:+ before_first_underscore s.
Proof.
  revert cur. induction s as [|c s IH]; intros cur; simpl.
  - by rewrite string_app_empty_r.
  - destruct (Ascii.eqb c "_").
    + by rewrite string_app_empty_r.
    + by rewrite IH, string_app_assoc.
Qed.

Lemma last_cons_not_nil (x : string) (l : list string) :
  l <> [] -> last_item (x :: l) = last_item l.
Proof. by destruct l. Qed.

Lemma after_last_no_underscore t :
  has_underscore t = false -> after_last_underscore t = t.
Proof.
  destruct t as [|c t]; simpl; [done|].
  intros [Hc Ht]%orb_false_iff. by rewrite Ht, Hc.
Qed.

(** [t.split("_")[-1]] is the token after the last underscore. *)
Lemma last_item_split cur s :
  last_item (split_on_from "_" cur s)
  = if has_underscore s then after_last_underscore s else cur +:+ s.
Proof.
  revert cur. induction s as [|c s IH]; intros cur; simpl.
  - by rewrite string_app_empty_r.
  - destruct (Ascii.eqb c "_") eqn:Hc; simpl.
    + rewrite last_cons_not_nil by apply split_on_from_not_nil.
      rewrite IH. by destruct (has_underscore s).
    + rewrite IH, string_app_assoc. by destruct (has_underscore s).
Qed.

Lemma approx_cond_rules t c : approx_cond t c = satisfies_some_rule t c.
Proof.
  unfold approx_cond, satisfies_some_rule, rule1, rule2, rule3, rule4, split_on.
  simpl. rewrite first_item_split, last_item_split.
  change (EmptyString +:+ ?x) with x.
  destruct (has_underscore t) eqn:Hu.
  - by rewrite orb_false_r, !orb_assoc.
  - rewrite (after_last_no_underscore t Hu). by rewrite orb_false_r, !orb_assoc.
Qed.

(** The inner loop sets the first header that passes, and nothing else. *)
Lemma approx_loop_find t columns (m : gmap string string) :
  approx_loop t columns m
  = match List.find (satisfies_some_rule t) columns with
    | Some c => <[t := c]> m
    | None => m
    end.
Proof.
  induction columns as [|c columns IH]; simpl; [done|].
  rewrite <- approx_cond_rules. by destruct (approx_cond t c).
Qed.

Lemma mapper_step_spec columns (m : gmap string string) t :
  mapper_step columns m t
  = match mapping_of columns t with
    | Some c => <[t := c]> m
    | None => m
    end.
Proof.
  unfold mapper_step, mapping_of.
  destruct (bool_decide (t ∈ columns)); [done | apply approx_loop_find].
Qed.

(** What the outer loop leaves under a key, from any starting dictionary. *)
Lemma mapper_loop_lookup columns targets (m : gmap string string) t :
  fold_left (mapper_step columns) targets m !! t
  = if bool_decide (t ∈ targets)
    then from_option Some (m !! t) (mapping_of columns t)
    else m !! t.
Proof.
  revert m. induction targets as [|a targets IH]; intros m; simpl; [done|].
  rewrite IH, mapper_step_spec.
  destruct (decide (a = t)) as [->|Hne].
  - rewrite (bool_decide_eq_true_2 (t ∈ t :: targets)) by apply list_elem_of_here.
    destruct (mapping_of columns t) as [c|] eqn:Hmap; simpl.
    + rewrite lookup_insert_eq. by destruct (bool_decide (t ∈ targets)).
    + by destruct (bool_decide (t ∈ targets)).
  - assert (Hlk : (match mapping_of columns a with
                   | Some c => <[a := c]> m
                   | None => m
                   end) !! t = m !! t).
    { destruct (mapping_of columns a); [by rewrite lookup_insert_ne | done]. }
    rewrite Hlk.
    destruct (decide (t ∈ targets)) as [Hin|Hnin].
    + rewrite (bool_decide_eq_true_2 (t ∈ targets)) by done.
      rewrite (bool_decide_eq_true_2 (t ∈ a :: targets)); [done|].
      by apply list_elem_of_further.
    + rewrite (bool_decide_eq_false_2 (t ∈ targets)) by done.
      rewrite (bool_decide_eq_false_2 (t ∈ a :: targets)); [done|].
      intros [?|?]%elem_of_cons; congruence.
Qed.

Lemma build_col_map_lookup columns targets t :
  build_col_map columns targets !! t
  = if bool_decide (t ∈ targets) then mapping_of columns t else None.
Proof.
  unfold build_col_map. rewrite mapper_loop_lookup, lookup_empty.
  by destruct (mapping_of columns t).
Qed.

(** The dictionary only grows along the loop. *)
Lemma build_col_map_grows columns targets more :
  build_col_map columns targets ⊆ build_col_map columns (targets ++ more).
Proof.
  apply map_subseteq_spec. intros k v.
  rewrite !build_col_map_lookup.
  destruct (decide (k ∈ targets)) as [Hin|Hnin].
  - rewrite (bool_decide_eq_true_2 (k ∈ targets)) by done.
    rewrite (bool_decide_eq_true_2 (k ∈ targets ++ more)); [done|].
    apply elem_of_app. by left.
  - rewrite (bool_decide_eq_false_2 (k ∈ targets)) by done. done.
Qed.
End MapperFacts.

(** C3. The Schema Mapper computes the reference definition: an exact match
    maps the target to itself; otherwise the target maps to the first header,
    in column order, that passes one of the four substring rules; otherwise
    it stays unmapped. No entry is removed or revised once set: the
    dictionary after any number of iterations is part of the final one. *)
Theorem schema_mapper_refines_spec (headers : list string) (t : string) :
  build_col_map headers TARGET_COLS !! t
  = (if bool_decide (t ∈ TARGET_COLS) then MapperSpec.mapping_of headers t
     else None)
  /\ forall n, build_col_map headers (take n TARGET_COLS)
               ⊆ build_col_map headers TARGET_COLS.
Proof.
  split; [apply build_col_map_lookup|].
  intros n. rewrite <- (take_drop n TARGET_COLS) at 2.
  apply build_col_map_grows.
Qed.

(** C9. Some header list makes two distinct target columns map to the same
    source header: with the single header [total], both [total_sales] and
    [total_cost_price] map to it. *)
Theorem two_targets_share_a_header :
  exists (headers : list string) (t1 t2 c : string),
    t1 ∈ TARGET_COLS /\ t2 ∈ TARGET_COLS /\ t1 <> t2
    /\ build_col_map headers TARGET_COLS !! t1 = Some c
    /\ build_col_map headers TARGET_COLS !! t2 = Some c.
Proof.
  exists ["total"], "total_sales", "total_cost_price", "total".
  split; [by apply (bool_decide_unpack _)|].
  split; [by apply (bool_decide_unpack _)|].
  split; [discriminate|].
  rewrite !build_col_map_lookup. split; vm_compute; reflexivity.
Qed.

(** ** Row Coercer *)


(** ** Row Coercer *)

(** C1 (fails on the code). A quantity cell holding the number 2.5 is not a
    whole number; the cast to [Int64] raises [TypeError] and the whole run is
    aborted, whatever the text parsers of the library do. *)
Theorem fractional_quantity_raises (lib : library) :
  map_dataframe lib Examples.fractional_quantity = Raise TypeError.
Proof. vm_compute. reflexivity. Qed.

(** C2 (fails on the code). With the headers Outlet, Date and Qty the target
    [day] is unmapped, the run succeeds, and the [day] cell of the row is the
    text [<NA>], which is not an absent value. *)
Theorem unmapped_text_column_holds_text (lib : library) :
  exists out,
    map_dataframe lib Examples.outlet_date_qty = Ok out
    /\ build_col_map (normalize_cols (py_str lib)
                        (labels Examples.outlet_date_qty)) TARGET_COLS
       !! "day" = None
    /\ column out "day" = Ok [PStr "<NA>"]
    /\ isna (PStr "<NA>") = false.
Proof.
  eexists. split; [vm_compute; reflexivity|].
  repeat split; vm_compute; reflexivity.
Qed.

(** C5 (fails on the code). A sheet of one row whose header matches no target
    column comes back with the eleven target columns, in order, and no
    row. *)
Theorem unmatched_sheet_loses_its_rows (lib : library) :
  exists out,
    map_dataframe lib Examples.unrelated_header = Ok out
    /\ nrows Examples.unrelated_header = 1
    /\ labels out = TARGET_COLS
    /\ nrows out = 0
    /\ Forall (fun c => snd c = []) (cols out).
Proof.
  eexists. split; [vm_compute; reflexivity|].
  repeat split; try (vm_compute; reflexivity).
  cbn. repeat constructor.
Qed.

(** ** Date cells *)

Section DateFacts.
Import PyStr Reference.

Lemma digit_of_digit_char n : digit_of (digit_char n) = Some (n mod 10).
Proof.
  unfold digit_char.
  assert (H : n mod 10 < 10) by (apply Nat.mod_upper_bound; lia).
  destruct (n mod 10) as [|[|[|[|[|[|[|[|[|[|k]]]]]]]]]]; try reflexivity; lia.
Qed.

Lemma date_char_settled c : date_char c = true -> settled c = true.
Proof.
  destruct c as [[] [] [] [] [] [] [] []]; vm_compute; intros H;
    first [reflexivity | discriminate H].
Qed.

Lemma digit_not_dash c : is_Some_b (digit_of c) = true -> Ascii.eqb c "-" = false.
Proof.
  destruct c as [[] [] [] [] [] [] [] []]; vm_compute; intros H;
    first [reflexivity | discriminate H].
Qed.

Lemma string_length_app (a b : string) :
  String.length (a +:+ b) = String.length a + String.length b.
Proof.
  induction a as [|c a IH]; [done|]. rewrite string_app_cons. simpl. by rewrite IH.
Qed.

Lemma fixed_digits_length w n : String.length (fixed_digits w n) = w.
Proof.
  revert n. induction w as [|w IH]; intros n; cbn [fixed_digits]; [done|].
  rewrite string_length_app, IH. cbn [String.length]. lia.
Qed.

Lemma fixed_digits_digits w n :
  all_chars (fun c => is_Some_b (digit_of c)) (fixed_digits w n) = true.
Proof.
  revert n. induction w as [|w IH]; intros n; cbn [fixed_digits]; [done|].
  rewrite all_chars_app, IH. cbn [all_chars]. by rewrite digit_of_digit_char.
Qed.

Lemma digits_value_app acc s1 s2 :
  digits_value acc (s1 +:+ s2)
  = match digits_value acc s1 with
    | Some a => digits_value a s2
    | None => None
    end.
Proof.
  revert acc. induction s1 as [|c s1 IH]; intros acc; [done|].
  rewrite string_app_cons. cbn [digits_value].
  destruct (digit_of c); [apply IH | done].
Qed.

(** Reading the digits written by [fixed_digits] gives the number back. *)
Lemma digits_value_fixed w n :
  digits_value 0 (fixed_digits w n) = Some (n mod 10 ^ w).
Proof.
  revert n. induction w as [|w IH]; intros n.
  - cbn [fixed_digits digits_value Nat.pow]. by rewrite Nat.mod_1_r.
  - cbn [fixed_digits]. rewrite digits_value_app, IH. cbn [digits_value].
    rewrite digit_of_digit_char. f_equal.
    rewrite Nat.pow_succ_r', (Nat.Div0.mod_mul_r n 10 (10 ^ w)). lia.
Qed.

Lemma parse_nat_fixed w n :
  0 < w -> n < 10 ^ w -> parse_nat (fixed_digits w n) = Some n.
Proof.
  intros Hw Hn. unfold parse_nat.
  rewrite digits_value_fixed, Nat.mod_small by done.
  destruct w as [|w]; [lia|]. cbn [fixed_digits].
  destruct (fixed_digits w (n / 10)); done.
Qed.

Lemma split_on_from_token sep cur tok rest :
  all_chars (fun c => negb (Ascii.eqb c sep)) tok = true ->
  split_on_from sep cur (tok +:+ rest) = split_on_from sep (cur +:+ tok) rest.
Proof.
  revert cur. induction tok as [|c tok IH]; intros cur.
  - by rewrite string_app_empty_r.
  - rewrite string_app_cons. cbn [all_chars split_on_from].
    intros [Hc Htok]%andb_true_iff. apply negb_true_iff in Hc. rewrite Hc.
    rewrite IH by done. by rewrite string_app_assoc.
Qed.

(** Three tokens without a dash, joined by dashes, split back into them. *)
Lemma split_three a b c :
  all_chars (fun x => negb (Ascii.eqb x "-")) a = true ->
  all_chars (fun x => negb (Ascii.eqb x "-")) b = true ->
  all_chars (fun x => negb (Ascii.eqb x "-")) c = true ->
  split_on "-" (a +:+ "-" +:+ b +:+ "-" +:+ c) = [a; b; c].
Proof.
  intros Ha Hb Hc. unfold split_on.
  rewrite split_on_from_token by done.
  change ("-" +:+ ?x) with (String "-"%char x). cbn [split_on_from].
  rewrite Ascii.eqb_refl. f_equal.
  rewrite split_on_from_token by done.
  change ("-" +:+ c) with (String "-"%char c). cbn [split_on_from].
  rewrite Ascii.eqb_refl. f_equal.
  rewrite <- (string_app_empty_r c) at 1.
  rewrite split_on_from_token by done. done.
Qed.

Lemma fixed_digits_no_dash w n :
  all_chars (fun x => negb (Ascii.eqb x "-")) (fixed_digits w n) = true.
Proof.
  apply all_chars_impl with (p := fun c => is_Some_b (digit_of c)).
  - intros c Hc. by rewrite (digit_not_dash c Hc).
  - apply fixed_digits_digits.
Qed.

Lemma fixed_digits_date_chars w n :
  all_chars date_char (fixed_digits w n) = true.
Proof.
  apply all_chars_impl with (p := fun c => is_Some_b (digit_of c)).
  - intros c Hc. unfold date_char. by rewrite Hc.
  - apply fixed_digits_digits.
Qed.

Lemma zero_padded_small w n : n < 10 ^ w -> zero_padded w n = fixed_digits w n.
Proof.
  intros H. unfold zero_padded.
  by rewrite (proj2 (Nat.ltb_lt n (10 ^ w)) H).
Qed.

(** The bounds of the fields of a valid date. *)
Lemma valid_date_bounds d :
  valid_date d = true -> year d < 10 ^ 4 /\ month d < 10 ^ 2 /\ day d < 10 ^ 2.
Proof.
  unfold valid_date. rewrite !andb_true_iff.
  intros [[[[[_ Hy] _] Hm] _] Hd].
  apply Nat.ltb_lt in Hy. apply Nat.leb_le in Hm, Hd.
  split; [done|].
  assert (Hdm : days_in_month (year d) (month d) <= 31).
  { unfold days_in_month.
    destruct (month d) as [|[|[|[|[|[|[|[|[|[|[|[|[|k]]]]]]]]]]]]];
      try destruct (is_leap (year d)); lia. }
  change (10 ^ 2) with 100. lia.
Qed.

Lemma strip_settled s : all_chars settled s = true -> strip s = s.
Proof.
  intros Hs. unfold strip.
  by rewrite (lstrip_settled s Hs), (rstrip_settled s Hs).
Qed.

(** A valid date written day first is read back as that date. *)
Lemma dayfirst_date_dmy d :
  valid_date d = true -> dayfirst_date (dmy_text d) = Some d.
Proof.
  intros Hv. destruct (valid_date_bounds d Hv) as (Hy & Hm & Hd).
  unfold dayfirst_date, dmy_text.
  rewrite !zero_padded_small by done.
  rewrite strip_settled.
  2:{ rewrite !all_chars_app.
      rewrite !(all_chars_impl date_char settled _ date_char_settled
                  (fixed_digits_date_chars _ _)). done. }
  rewrite split_three by apply fixed_digits_no_dash.
  rewrite !fixed_digits_length. cbn [Nat.leb Nat.eqb andb].
  rewrite !parse_nat_fixed by (done || lia).
  destruct d as [y m dd]. cbn [year month day] in *. by rewrite Hv.
Qed.


End DateFacts.

(** ** Bulk Loader *)

(** C6. The bulk load is all or nothing. On a fresh connection, when the
    store rejects the bulk-ingest command the loader raises, the only thing
    sent is the command (no commit), and the committed table is unchanged,
    also after the connection is closed; when the store accepts it, the
    commit comes after the command and the committed table gains exactly the
    rows of the command. *)
Theorem bulk_load_all_or_nothing {R : Type}
    (store_copy : string -> string -> option (list R)) (lib : library)
    (df : frame string) (table0 : list R) :
  let sql := copy_sql TARGET_TABLE TARGET_COLS in
  let payload := to_csv lib df in
  let run := copy_df_to_postgres store_copy lib df (connect table0)
               TARGET_TABLE TARGET_COLS in
  match store_copy sql payload with
  | None =>
      fst run = Raise StoreError
      /\ log (snd run) = [EvCopy sql payload]
      /\ committed (snd run) = table0
      /\ committed (snd (load store_copy lib df table0)) = table0
  | Some rows =>
      fst run = Ok tt
      /\ log (snd run) = [EvCopy sql payload; EvCommit]
      /\ committed (snd run) = table0 ++ rows
      /\ committed (snd (load store_copy lib df table0)) = table0 ++ rows
  end.
Proof.
  intros sql payload run. subst run.
  unfold load, copy_df_to_postgres, copy_expert. fold sql. fold payload.
  destruct (store_copy sql payload) as [rows|]; cbn; repeat split; done.
Qed.

(** ** Shape of the table that [map_dataframe] returns *)

Section FrameFacts.

Ltac bind_ok H :=
  match type of H with
  | bind ?r _ = Ok _ =>
      let E := fresh "E" in destruct r eqn:E; cbn [bind] in H; [|discriminate H]
  end.

Lemma put_col_labels key vals (cs : list (string * list pyval)) :
  map fst (put_col key vals cs)
  = if bool_decide (key ∈ map fst cs) then map fst cs else map fst cs ++ [key].
Proof.
  induction cs as [|[k v] cs IH]; [done|]. cbn [put_col fst map].
  destruct (String.eqb_spec k key) as [->|Hne].
  - rewrite bool_decide_eq_true_2 by apply list_elem_of_here. done.
  - cbn [map fst]. rewrite IH.
    destruct (decide (key ∈ map fst cs)) as [Hin|Hnin].
    + rewrite (bool_decide_eq_true_2 (key ∈ map fst cs)) by done.
      rewrite (bool_decide_eq_true_2 (key ∈ k :: map fst cs)); [done|].
      by apply list_elem_of_further.
    + rewrite (bool_decide_eq_false_2 (key ∈ map fst cs)) by done.
      rewrite (bool_decide_eq_false_2 (key ∈ k :: map fst cs)); [done|].
      intros [?|?]%elem_of_cons; congruence.
Qed.

Lemma put_col_Forall (P : string * list pyval -> Prop) key vals cs :
  Forall P cs -> P (key, vals) -> Forall P (put_col key vals cs).
Proof.
  intros Hcs Hnew. induction Hcs as [|c cs Hc Hcs IH]; cbn [put_col].
  - by constructor.
  - destruct (String.eqb (fst c) key); constructor; done.
Qed.

Lemma reindex_length n vals : length (reindex n vals) = n.
Proof.
  unfold reindex. rewrite length_take, length_app, repeat_length. lia.
Qed.

(** [out[key] = Series]: the frame stays well formed, keeps its labels and
    appends a new one, and takes the length of the Series when it had no
    index position. *)
Lemma setitem_series out key vals out' :
  well_formed out ->
  setitem out key (Series vals) = Ok out' ->
  well_formed out'
  /\ labels out' = (if bool_decide (key ∈ labels out) then labels out
                    else labels out ++ [key])
  /\ nrows out' = (if (nrows out =? 0)%nat then length vals else nrows out).
Proof.
  unfold well_formed, labels, setitem. intros Hwf.
  destruct ((nrows out =? 0)%nat && (0 <? length vals)%nat) eqn:Hb;
    intros [= <-]; cbn [nrows cols].
  - apply andb_true_iff in Hb as [H0 _]. rewrite H0.
    split; [|split; [|done]].
    + apply put_col_Forall; [|done].
      apply List.Forall_map, Forall_forall. intros c _. apply reindex_length.
    + rewrite put_col_labels, map_map. done.
  - split; [|split].
    + apply put_col_Forall; [done | apply reindex_length].
    + apply put_col_labels.
    + destruct (nrows out =? 0)%nat eqn:H0; [|done].
      apply Nat.eqb_eq in H0. rewrite H0. cbn in Hb.
      destruct (length vals); [done | discriminate Hb].
Qed.

Lemma setitem_scalar_shape out key v :
  well_formed out ->
  well_formed (setitem_scalar out key v)
  /\ labels (setitem_scalar out key v)
     = (if bool_decide (key ∈ labels out) then labels out
        else labels out ++ [key])
  /\ nrows (setitem_scalar out key v) = nrows out.
Proof.
  unfold well_formed, labels, setitem_scalar. intros Hwf. cbn [nrows cols].
  split; [|split; [apply put_col_labels | done]].
  apply put_col_Forall; [done | apply repeat_length].
Qed.

(** A Series taken from a well-formed frame has its number of rows, and its
    label is one of the frame's. *)
Lemma getitem_series f key vals :
  well_formed f -> getitem f key = Ok (Series vals) ->
  length vals = nrows f /\ key ∈ labels f.
Proof.
  unfold well_formed, getitem, labels. intros Hwf H.
  destruct (filter (fun c => fst c = key) (cols f)) as [|c [|c' l]] eqn:Hf;
    try discriminate H.
  injection H as <-.
  assert (Hc : c ∈ filter (fun c => fst c = key) (cols f))
    by (rewrite Hf; apply list_elem_of_here).
  apply list_elem_of_filter in Hc as [Hk Hc].
  split.
  - by apply (proj1 (Forall_forall _ _) Hwf c).
  - rewrite <- Hk. apply list_elem_of_In, in_map. by apply list_elem_of_In.
Qed.

Lemma column_series f key vals :
  well_formed f -> column f key = Ok vals ->
  length vals = nrows f /\ key ∈ labels f.
Proof.
  unfold column. intros Hwf H. bind_ok H.
  destruct a as [v|]; [|discriminate H]. injection H as <-.
  by apply getitem_series.
Qed.

Lemma set_columns_shape {L M} (f : frame L) (new_labels : list M) f' :
  well_formed f -> set_columns f new_labels = Ok f' ->
  well_formed f' /\ nrows f' = nrows f.
Proof.
  unfold set_columns, well_formed. intros Hwf.
  destruct (length new_labels =? length (cols f))%nat; [|discriminate].
  intros [= <-]. cbn [nrows cols]. split; [|done].
  revert new_labels. induction Hwf as [|c cs Hc Hcs IH]; intros [|l ls];
    cbn; constructor; auto.
Qed.

Lemma set_columns_labels {L M} (f : frame L) (new_labels : list M) f' :
  set_columns f new_labels = Ok f' -> labels f' = new_labels.
Proof.
  unfold set_columns, labels.
  destruct (length new_labels =? length (cols f))%nat eqn:Hlen; [|discriminate].
  intros [= <-]. cbn [cols]. apply Nat.eqb_eq in Hlen. revert Hlen.
  generalize (cols f). induction new_labels as [|l ls IH]; intros [|c cs];
    cbn; try done.
  intros [= Hlen]. f_equal. by apply IH.
Qed.

Context (lib : library) (df : frame string) (col_map : gmap string string).
Hypothesis df_well_formed : well_formed df.

(** The second loop of [map_dataframe]. *)
Lemma build_loop_shape targets out out' :
  well_formed out ->
  nrows out = nrows df \/ nrows out = 0 ->
  NoDup targets -> (forall t, t ∈ targets -> t ∉ labels out) ->
  for_each (build_step df col_map) targets out = Ok out' ->
  well_formed out'
  /\ labels out' = labels out ++ targets
  /\ (nrows out' = nrows df
      \/ (nrows out = 0 /\ nrows out' = 0
          /\ Forall (fun t => col_map !! t = None) targets)).
Proof.
  revert out. induction targets as [|t targets IH];
    intros out Hwf Hn Hnd Hfresh H.
  - injection H as <-. rewrite app_nil_r. repeat split; [done|].
    destruct Hn as [Hn|Hn]; [by left | right; by repeat split].
  - cbn [for_each] in H. bind_ok H.
    apply NoDup_cons in Hnd as [Ht Hnd].
    assert (Hta : t ∉ labels out) by (apply Hfresh, list_elem_of_here).
    assert (Hshape : well_formed a /\ labels a = labels out ++ [t]
                     /\ (nrows a = nrows df
                         \/ (col_map !! t = None /\ nrows a = nrows out))).
    { unfold build_step in E.
      destruct (col_map !! t) as [src|] eqn:Hsrc.
      - bind_ok E. destruct a0 as [vals|]; [|discriminate E].
        destruct (getitem_series df src vals df_well_formed E0) as [Hlen _].
        destruct (setitem_series out t vals a Hwf E) as (Hwa & Hla & Hna).
        rewrite (bool_decide_eq_false_2 _ Hta) in Hla.
        split; [done|]. split; [done|]. left. rewrite Hna.
        destruct Hn as [Hn|Hn]; rewrite Hn.
        + destruct (nrows df =? 0)%nat eqn:H0; [|done].
          apply Nat.eqb_eq in H0. lia.
        + done.
      - injection E as <-.
        destruct (setitem_scalar_shape out t PNA Hwf) as (Hwa & Hla & Hna).
        rewrite (bool_decide_eq_false_2 _ Hta) in Hla.
        split; [done|]. split; [done|]. right. done. }
    destruct Hshape as (Hwa & Hla & Hna).
    destruct (IH a) as (Hw' & Hl' & Hn'); try done.
    { destruct Hna as [Hna|[_ Hna]]; [by left | rewrite Hna; done]. }
    { intros t' Ht'. rewrite Hla. intros [Hin|Hin]%elem_of_app.
      - apply (Hfresh t'); [by apply list_elem_of_further | done].
      - apply list_elem_of_singleton in Hin as ->. done. }
    split; [done|]. split; [by rewrite Hl', Hla, <- app_assoc|].
    destruct Hn' as [Hn'|(Ha0 & Ho0 & Hall)]; [by left|].
    destruct Hna as [Hna|[Hnone Hna]].
    + left. lia.
    + destruct Hn as [Hn|Hn]; [left; lia|].
      right. repeat split; [done | done | by constructor].
Qed.

(** [out[c] = f(out[c])] for an [f] that keeps the length of a column. *)
Lemma update_column_shape (f : list pyval -> result (list pyval)) out c out' :
  (forall v v', f v = Ok v' -> length v' = length v) ->
  well_formed out ->
  update_column f out c = Ok out' ->
  well_formed out' /\ labels out' = labels out /\ nrows out' = nrows out.
Proof.
  intros Hf Hwf H. unfold update_column in H. bind_ok H. bind_ok H.
  destruct (column_series out c a Hwf E) as [Hlen Hin].
  destruct (setitem_series out c a0 out' Hwf H) as (Hw' & Hl' & Hn').
  rewrite (bool_decide_eq_true_2 _ Hin) in Hl'.
  split; [done|]. split; [done|]. rewrite Hn'.
  destruct (nrows out =? 0)%nat eqn:H0; [|done].
  apply Nat.eqb_eq in H0. rewrite (Hf a a0 E0). lia.
Qed.

Lemma update_loop_shape (f : list pyval -> result (list pyval)) cs out out' :
  (forall v v', f v = Ok v' -> length v' = length v) ->
  well_formed out ->
  for_each (update_column f) cs out = Ok out' ->
  well_formed out' /\ labels out' = labels out /\ nrows out' = nrows out.
Proof.
  intros Hf. revert out. induction cs as [|c cs IH]; intros out Hwf H.
  - by injection H as <-.
  - cbn [for_each] in H. bind_ok H.
    destruct (update_column_shape f out c a Hf Hwf E) as (Hwa & Hla & Hna).
    destruct (IH a Hwa H) as (Hw' & Hl' & Hn').
    split; [done|]. split; congruence.
Qed.

Lemma map_result_length {A B} (g : A -> result B) l l' :
  map_result g l = Ok l' -> length l' = length l.
Proof.
  revert l'. induction l as [|a l IH]; intros l' H.
  - by injection H as <-.
  - cbn [map_result] in H. bind_ok H. bind_ok H. injection H as <-.
    cbn. f_equal. by apply IH.
Qed.

Lemma to_numeric_length vals : length (to_numeric lib vals) = length vals.
Proof.
  unfold to_numeric. destruct (_ && _); by rewrite !length_map.
Qed.

Lemma to_datetime_date_length vals :
  length (to_datetime_date lib vals) = length vals.
Proof.
  unfold to_datetime_date. destruct (datetime_format lib vals);
    apply length_map.
Qed.

Lemma astype_Int64_length vals vals' :
  astype_Int64 vals = Ok vals' -> length vals' = length vals.
Proof.
  unfold astype_Int64. destruct (overflows vals); [discriminate|].
  apply map_result_length.
Qed.
End FrameFacts.

(** The table that [map_dataframe] returns has the target columns, in target
    order; it has the rows of the sheet as soon as one target column is
    mapped, and no row otherwise. *)
Theorem map_dataframe_shape (lib : library) (df : frame pyval) out :
  well_formed df ->
  map_dataframe lib df = Ok out ->
  let col_map := build_col_map (normalize_cols (py_str lib) (labels df))
                   TARGET_COLS in
  well_formed out
  /\ labels out = TARGET_COLS
  /\ (nrows out = nrows df
      \/ (nrows out = 0
          /\ Forall (fun t => col_map !! t = None) TARGET_COLS)).
Proof.
  intros Hwf H col_map. unfold map_dataframe in H.
  destruct (set_columns df _) as [df'|] eqn:Hdf'; cbn [bind] in H;
    [|discriminate H].
  destruct (set_columns_shape df _ df' Hwf Hdf') as [Hwf' Hrows].
  rewrite (set_columns_labels df _ df' Hdf') in H. fold col_map in H.
  destruct (for_each (build_step df' col_map) TARGET_COLS empty_frame)
    as [out1|] eqn:H1; cbn [bind] in H; [|discriminate H].
  destruct (build_loop_shape df' col_map Hwf' TARGET_COLS empty_frame out1)
    as (Hw1 & Hl1 & Hn1); try done.
  { by constructor. }
  { by right. }
  { by apply (bool_decide_unpack _). }
  { intros t _. cbn. apply not_elem_of_nil. }
  destruct (update_column _ out1 "date") as [out2|] eqn:H2; cbn [bind] in H;
    [|discriminate H].
  apply update_column_shape in H2 as (Hw2 & Hl2 & Hn2);
    [|intros v v' [= <-]; apply to_datetime_date_length | done].
  destruct (for_each _ ["guest_count"; "quantity"] out2) as [out3|] eqn:H3;
    cbn [bind] in H; [|discriminate H].
  apply update_loop_shape in H3 as (Hw3 & Hl3 & Hn3);
    [|intros v v' Hv; rewrite (astype_Int64_length _ _ Hv);
      apply to_numeric_length | done].
  destruct (for_each _ ["cost_price"; _; _; _; _] out3) as [out4|] eqn:H4;
    cbn [bind] in H; [|discriminate H].
  apply update_loop_shape in H4 as (Hw4 & Hl4 & Hn4);
    [|intros v v' [= <-]; apply to_numeric_length | done].
  destruct (for_each _ ["outlet"; _; _] out4) as [out5|] eqn:H5;
    cbn [bind] in H; [|discriminate H].
  apply update_loop_shape in H5 as (Hw5 & Hl5 & Hn5);
    [|intros v v' [= <-]; apply length_map | done].
  injection H as <-.
  split; [done|]. split; [by rewrite Hl5, Hl4, Hl3, Hl2, Hl1|].
  rewrite Hn5, Hn4, Hn3, Hn2, <- Hrows.
  destruct Hn1 as [Hn1|(_ & Hn1 & Hall)]; [by left | by right].
Qed.

(** When no target column is mapped, the table has no row. *)
Lemma build_loop_unmapped (df : frame string) (col_map : gmap string string)
    targets out out' :
  Forall (fun t => col_map !! t = None) targets ->
  for_each (build_step df col_map) targets out = Ok out' ->
  nrows out' = nrows out.
Proof.
  intros Hall. revert out. induction Hall as [|t targets Ht Hall IH];
    intros out H.
  - by injection H as <-.
  - cbn [for_each] in H. unfold build_step at 1 in H. rewrite Ht in H.
    cbn [bind] in H. by rewrite (IH _ H).
Qed.

Lemma map_dataframe_unmapped (lib : library) (df : frame pyval) out :
  well_formed df ->
  map_dataframe lib df = Ok out ->
  Forall (fun t => build_col_map (normalize_cols (py_str lib) (labels df))
                     TARGET_COLS !! t = None) TARGET_COLS ->
  nrows out = 0.
Proof.
  intros Hwf H Hall. unfold map_dataframe in H.
  destruct (set_columns df _) as [df'|] eqn:Hdf'; cbn [bind] in H;
    [|discriminate H].
  destruct (set_columns_shape df _ df' Hwf Hdf') as [Hwf' Hrows].
  rewrite (set_columns_labels df _ df' Hdf') in H.
  set (col_map := build_col_map (normalize_cols (py_str lib) (labels df))
                    TARGET_COLS) in *.
  destruct (for_each (build_step df' col_map) TARGET_COLS empty_frame)
    as [out1|] eqn:H1; cbn [bind] in H; [|discriminate H].
  pose proof (build_loop_unmapped df' col_map TARGET_COLS empty_frame out1
                Hall H1) as Hn1.
  destruct (build_loop_shape df' col_map Hwf' TARGET_COLS empty_frame out1)
    as (Hw1 & Hl1 & _); try done.
  { by constructor. }
  { by right. }
  { by apply (bool_decide_unpack _). }
  { intros t _. cbn. apply not_elem_of_nil. }
  destruct (update_column _ out1 "date") as [out2|] eqn:H2; cbn [bind] in H;
    [|discriminate H].
  apply update_column_shape in H2 as (Hw2 & Hl2 & Hn2);
    [|intros v v' [= <-]; apply to_datetime_date_length | done].
  destruct (for_each _ ["guest_count"; "quantity"] out2) as [out3|] eqn:H3;
    cbn [bind] in H; [|discriminate H].
  apply update_loop_shape in H3 as (Hw3 & Hl3 & Hn3);
    [|intros v v' Hv; rewrite (astype_Int64_length _ _ Hv);
      apply to_numeric_length | done].
  destruct (for_each _ ["cost_price"; _; _; _; _] out3) as [out4|] eqn:H4;
    cbn [bind] in H; [|discriminate H].
  apply update_loop_shape in H4 as (Hw4 & Hl4 & Hn4);
    [|intros v v' [= <-]; apply to_numeric_length | done].
  destruct (for_each _ ["outlet"; _; _] out4) as [out5|] eqn:H5;
    cbn [bind] in H; [|discriminate H].
  apply update_loop_shape in H5 as (Hw5 & Hl5 & Hn5);
    [|intros v v' [= <-]; apply length_map | done].
  injection H as <-. by rewrite Hn5, Hn4, Hn3, Hn2, Hn1.
Qed.

(** * Further properties of the code *)

(** ** Header Normalizer *)

(** X1. Every character of a normalized header is neither white space nor
    changed by [lower]: the header is one lower-case token. *)
Theorem normalized_header_is_one_token (s : string) :
  PyStr.all_chars (fun c => negb (PyStr.isspace c)
                            && Ascii.eqb (PyStr.lower_char c) c)
    (normalize_header s) = true.
Proof. apply normalize_header_settled. Qed.

Section NormalizerMore.
Import PyStr.

Lemma lstrip_blank s : all_chars isspace s = true -> lstrip s = EmptyString.
Proof.
  induction s as [|c s IH]; cbn [all_chars lstrip]; [done|].
  intros [Hc Hs]%andb_true_iff. rewrite Hc. by apply IH.
Qed.

Lemma isspace_lower c : isspace (lower_char c) = isspace c.
Proof. destruct c as [[] [] [] [] [] [] [] []]; vm_compute; reflexivity. Qed.

Lemma lower_char_idempotent c : lower_char (lower_char c) = lower_char c.
Proof. destruct c as [[] [] [] [] [] [] [] []]; vm_compute; reflexivity. Qed.

Lemma map_chars_app f (a b : string) :
  map_chars f (a +:+ b) = map_chars f a +:+ map_chars f b.
Proof.
  induction a as [|c a IH]; [done|].
  rewrite string_app_cons. cbn [map_chars]. by rewrite string_app_cons, IH.
Qed.

Lemma is_empty_map_chars f s : is_empty (map_chars f s) = is_empty s.
Proof. by destruct s. Qed.

Lemma lstrip_lower s : lstrip (lower s) = lower (lstrip s).
Proof.
  unfold lower. induction s as [|c s IH]; [done|]. cbn [map_chars lstrip].
  rewrite isspace_lower. by destruct (isspace c).
Qed.

Lemma rstrip_lower s : rstrip (lower s) = lower (rstrip s).
Proof.
  unfold lower. induction s as [|c s IH]; [done|]. cbn [map_chars rstrip].
  rewrite IH, is_empty_map_chars, isspace_lower.
  by destruct (is_empty (rstrip s) && isspace c).
Qed.

Lemma split_ws_from_lower cur s :
  split_ws_from (lower cur) (lower s) = map lower (split_ws_from cur s).
Proof.
  unfold lower. revert cur. induction s as [|c s IH]; intros cur;
    cbn [map_chars split_ws_from].
  - rewrite is_empty_map_chars. by destruct (is_empty cur).
  - rewrite isspace_lower, is_empty_map_chars.
    destruct (isspace c).
    + destruct (is_empty cur); cbn [map]; [apply (IH EmptyString)|].
      f_equal. apply (IH EmptyString).
    + rewrite <- IH, map_chars_app. done.
Qed.

Lemma join_cons_cons sep (a b : string) l :
  join sep (a :: b :: l) = a +:+ sep +:+ join sep (b :: l).
Proof. reflexivity. Qed.

Lemma join_lower ws : join " " (map lower ws) = lower (join " " ws).
Proof.
  induction ws as [|w ws IH]; [done|].
  destruct ws as [|w' ws]; [done|].
  cbn [map] in *. rewrite !join_cons_cons, IH.
  unfold lower. by rewrite !map_chars_app.
Qed.

Lemma lower_idempotent s : lower (lower s) = lower s.
Proof.
  unfold lower. rewrite map_chars_map_chars.
  induction s as [|c s IH]; cbn [map_chars]; [done|].
  by rewrite lower_char_idempotent, IH.
Qed.

Lemma rstrip_idempotent s : rstrip (rstrip s) = rstrip s.
Proof.
  induction s as [|c s IH]; [done|]. cbn [rstrip].
  destruct (is_empty (rstrip s) && isspace c) eqn:Hb; [done|].
  cbn [rstrip]. by rewrite IH, Hb.
Qed.

Lemma lstrip_idempotent s : lstrip (lstrip s) = lstrip s.
Proof.
  induction s as [|c s IH]; [done|]. cbn [lstrip].
  destruct (isspace c) eqn:Hc; [done|]. cbn [lstrip]. by rewrite Hc.
Qed.

(** Trimming on the right keeps a string trimmed on the left. *)
Lemma lstrip_rstrip s : lstrip s = s -> lstrip (rstrip s) = rstrip s.
Proof.
  destruct s as [|c s]; [done|]. cbn [lstrip rstrip].
  destruct (isspace c) eqn:Hc.
  - intros H. exfalso.
    assert (Hl : forall t, String.length (lstrip t) <= String.length t).
    { induction t as [|x t IHt]; cbn [lstrip]; [done|].
      destruct (isspace x); cbn [String.length]; lia. }
    specialize (Hl s). rewrite H in Hl. cbn [String.length] in Hl. lia.
  - intros _. rewrite andb_false_r. cbn [lstrip]. by rewrite Hc.
Qed.

Lemma strip_idempotent s : strip (strip s) = strip s.
Proof.
  unfold strip.
  rewrite (lstrip_rstrip (lstrip s) (lstrip_idempotent s)).
  apply rstrip_idempotent.
Qed.
End NormalizerMore.

(** X2. A header made of white space only (the empty one too) normalizes to the
    empty string. *)
Theorem blank_header_normalizes_to_empty (s : string) :
  PyStr.all_chars PyStr.isspace s = true -> normalize_header s = EmptyString.
Proof.
  intros Hs. unfold normalize_header, PyStr.strip.
  by rewrite (lstrip_blank s Hs).
Qed.

Lemma blank_header_normalizes_to_empty_witness :
  PyStr.all_chars PyStr.isspace "   " = true
  /\ normalize_header "   " = EmptyString.
Proof.
  split; [reflexivity|]. apply blank_header_normalizes_to_empty. reflexivity.
Defined.

(** X3. The normalizer does not see the case of the letters: a header and its
    lower-case form normalize to the same token. *)
Theorem normalize_header_ignores_case (s : string) :
  normalize_header (PyStr.lower s) = normalize_header s.
Proof.
  unfold normalize_header, PyStr.strip, PyStr.split_ws.
  rewrite lstrip_lower, rstrip_lower.
  rewrite (split_ws_from_lower EmptyString), join_lower, lower_idempotent.
  done.
Qed.

(** ** Schema Mapper *)

Section MapperMore.
Import PyStr MapperSpec.

Lemma find_app_Some {A} (p : A -> bool) (l more : list A) x :
  List.find p l = Some x -> List.find p (l ++ more) = Some x.
Proof.
  induction l as [|a l IH]; [done|]. cbn [List.find app].
  by destruct (p a).
Qed.

Lemma find_None_app {A} (p : A -> bool) (l more : list A) :
  List.find p l = None -> List.find p (l ++ more) = List.find p more.
Proof.
  induction l as [|a l IH]; [done|]. cbn [List.find app].
  by destruct (p a).
Qed.

Lemma find_exists {A} (p : A -> bool) (l : list A) x :
  x ∈ l -> p x = true -> is_Some (List.find p l).
Proof.
  induction l as [|a l IH]; intros Hin Hp.
  - by apply elem_of_nil in Hin.
  - cbn [List.find]. destruct (p a) eqn:Ha; [by eexists|].
    apply elem_of_cons in Hin as [->|Hin]; [congruence | by apply IH].
Qed.

(** The empty string occurs in every string. *)
Lemma contains_empty t : contains t EmptyString = true.
Proof. by destruct t. Qed.

Lemma mapping_of_in_headers headers t c :
  mapping_of headers t = Some c -> c ∈ headers.
Proof.
  unfold mapping_of. destruct (bool_decide (t ∈ headers)) eqn:Hx.
  - intros [= <-]. by apply bool_decide_eq_true in Hx.
  - intros Hf. apply find_some in Hf as [Hin _]. by apply list_elem_of_In.
Qed.
End MapperMore.

Lemma build_col_map_in_headers (headers targets : list string) (t c : string) :
  build_col_map headers targets !! t = Some c -> c ∈ headers.
Proof.
  rewrite build_col_map_lookup.
  destruct (bool_decide (t ∈ targets)); [|discriminate].
  apply mapping_of_in_headers.
Qed.

(** X4. A target is only ever mapped to one of the headers of the sheet, so
    [df[src]] never misses its column. *)
Theorem mapped_source_is_a_header (headers targets : list string)
    (t c : string) :
  build_col_map headers targets !! t = Some c -> c ∈ headers.
Proof. apply build_col_map_in_headers. Qed.

Lemma mapped_source_is_a_header_witness :
  build_col_map ["outlet_name"; "qty"] TARGET_COLS !! "outlet"
  = Some "outlet_name"
  /\ "outlet_name" ∈ ["outlet_name"; "qty"].
Proof.
  assert (H : build_col_map ["outlet_name"; "qty"] TARGET_COLS !! "outlet"
              = Some "outlet_name") by (vm_compute; reflexivity).
  split; [exact H|].
  exact (mapped_source_is_a_header _ _ _ _ H).
Defined.

(** X5. A sheet with a blank header (one that normalizes to the empty string)
    leaves no target unmapped: the empty string is a substring of every
    target, so the second rule accepts it. A target without another match
    before it is mapped to that blank column. *)
Theorem blank_header_maps_every_target (headers : list string) (t : string) :
  EmptyString ∈ headers -> t ∈ TARGET_COLS ->
  is_Some (build_col_map headers TARGET_COLS !! t)
  /\ (forall rest, headers = EmptyString :: rest -> t ∉ rest ->
        build_col_map headers TARGET_COLS !! t = Some EmptyString).
Proof.
  intros Hblank Ht. rewrite build_col_map_lookup.
  rewrite (bool_decide_eq_true_2 _ Ht).
  assert (Hrule : MapperSpec.satisfies_some_rule t EmptyString = true).
  { unfold MapperSpec.satisfies_some_rule, MapperSpec.rule2. cbn [existsb].
    rewrite contains_empty. by rewrite orb_true_r. }
  split.
  - unfold MapperSpec.mapping_of.
    destruct (bool_decide (t ∈ headers)); [by eexists|].
    by apply (find_exists _ _ EmptyString).
  - intros rest -> Hrest. unfold MapperSpec.mapping_of.
    assert (Hne : t <> EmptyString).
    { intros ->. revert Ht. by apply (bool_decide_unpack _). }
    rewrite bool_decide_eq_false_2.
    2:{ intros [?|?]%elem_of_cons; done. }
    cbn [List.find]. by rewrite Hrule.
Qed.

Lemma blank_header_maps_every_target_witness :
  EmptyString ∈ [EmptyString; "foo"] /\ "profit" ∈ TARGET_COLS
  /\ build_col_map [EmptyString; "foo"] TARGET_COLS !! "profit"
     = Some EmptyString.
Proof.
  assert (H1 : EmptyString ∈ [EmptyString; "foo"]) by apply list_elem_of_here.
  assert (H2 : "profit" ∈ TARGET_COLS) by (by apply (bool_decide_unpack _)).
  split; [exact H1|]. split; [exact H2|].
  apply (proj2 (blank_header_maps_every_target _ _ H1 H2) ["foo"] eq_refl).
  by apply (bool_decide_unpack _).
Defined.

(** X6. Columns added to the right of a sheet never change the mapping of a
    target that was already mapped, unless one of them is an exact match. *)
Theorem appended_headers_keep_mappings (headers more : list string)
    (t c : string) :
  build_col_map headers TARGET_COLS !! t = Some c -> t ∉ more ->
  build_col_map (headers ++ more) TARGET_COLS !! t = Some c.
Proof.
  rewrite !build_col_map_lookup.
  destruct (bool_decide (t ∈ TARGET_COLS)); [|discriminate].
  unfold MapperSpec.mapping_of. intros H Hmore.
  destruct (decide (t ∈ headers)) as [Hin|Hnin].
  - rewrite (bool_decide_eq_true_2 _ Hin) in H.
    rewrite bool_decide_eq_true_2; [done|]. apply elem_of_app. by left.
  - rewrite (bool_decide_eq_false_2 _ Hnin) in H.
    rewrite bool_decide_eq_false_2.
    2:{ intros [?|?]%elem_of_app; done. }
    by apply find_app_Some.
Qed.

Lemma appended_headers_keep_mappings_witness :
  build_col_map ["outlet_name"] TARGET_COLS !! "outlet" = Some "outlet_name"
  /\ ("outlet" ∉ ["shop"])
  /\ build_col_map (["outlet_name"] ++ ["shop"]) TARGET_COLS !! "outlet"
     = Some "outlet_name".
Proof.
  assert (H1 : build_col_map ["outlet_name"] TARGET_COLS !! "outlet"
               = Some "outlet_name") by (vm_compute; reflexivity).
  assert (H2 : "outlet" ∉ ["shop"]) by (by apply (bool_decide_unpack _)).
  split; [exact H1|]. split; [exact H2|].
  exact (appended_headers_keep_mappings _ _ _ _ H1 H2).
Defined.

(** ** Row Coercer *)

(** X7. The table that the coercion returns for a well-formed sheet has the
    eleven target columns, in target order, each with one cell per row; it
    has the rows of the sheet when some target column is mapped, and no row
    at all when none is. *)
Theorem coerced_table_has_target_columns (lib : library) (df : frame pyval)
    (out : frame string) :
  well_formed df ->
  map_dataframe lib df = Ok out ->
  let col_map := build_col_map (normalize_cols (py_str lib) (labels df))
                   TARGET_COLS in
  well_formed out
  /\ labels out = TARGET_COLS
  /\ ((exists t, t ∈ TARGET_COLS /\ is_Some (col_map !! t)) ->
      nrows out = nrows df)
  /\ (Forall (fun t => col_map !! t = None) TARGET_COLS -> nrows out = 0).
Proof.
  intros Hwf Hrun col_map.
  destruct (map_dataframe_shape lib df out Hwf Hrun) as (Hw & Hl & Hn).
  split; [done|]. split; [done|]. split.
  - intros (t & Ht & Hsome).
    destruct Hn as [Hn|[_ Hall]]; [done|].
    rewrite Forall_forall in Hall. fold col_map in Hall.
    rewrite (Hall t Ht) in Hsome. by destruct Hsome.
  - intros Hall. by apply (map_dataframe_unmapped lib df out).
Qed.

Lemma coerced_table_has_target_columns_witness :
  well_formed Examples.outlet_date_qty
  /\ exists out,
       map_dataframe Reference.lib Examples.outlet_date_qty = Ok out
       /\ labels out = TARGET_COLS.
Proof.
  assert (Hwf : well_formed Examples.outlet_date_qty)
    by (repeat constructor).
  split; [exact Hwf|]. eexists.
  assert (Hrun : map_dataframe Reference.lib Examples.outlet_date_qty = Ok _)
    by (vm_compute; reflexivity).
  split; [exact Hrun|].
  exact (proj1 (proj2 (coerced_table_has_target_columns Reference.lib _ _
                         Hwf Hrun))).
Defined.

Section CoercerFacts.

Lemma occurrences_filter key (cs : list (string * list pyval)) :
  length (filter (fun c => fst c = key) cs) = occurrences key (map fst cs).
Proof.
  unfold occurrences. induction cs as [|c cs IH]; [done|].
  cbn [map]. rewrite !filter_cons.
  destruct (decide (fst c = key)); cbn [length]; [f_equal|]; exact IH.
Qed.

Lemma occurrences_in key ls : key ∈ ls -> 0 < occurrences key ls.
Proof.
  unfold occurrences. intros Hin.
  assert (H : key ∈ filter (fun l => l = key) ls)
    by (by apply list_elem_of_filter).
  destruct (filter (fun l => l = key) ls); [by apply elem_of_nil in H|].
  cbn. lia.
Qed.

Lemma occurrences_NoDup key ls : NoDup ls -> occurrences key ls <= 1.
Proof.
  unfold occurrences. induction 1 as [|l ls Hl Hnd IH]; [cbn; lia|].
  rewrite filter_cons. destruct (decide (l = key)) as [->|]; [|done].
  cbn [length].
  destruct (filter (fun l => l = key) ls) as [|x xs] eqn:Hf; [done|].
  exfalso. apply Hl.
  assert (Hx : x ∈ filter (fun l => l = key) ls)
    by (rewrite Hf; apply list_elem_of_here).
  apply list_elem_of_filter in Hx as [-> Hx]. done.
Qed.

(** [df[key]] by the number of columns that carry the label. *)
Lemma getitem_by_occurrences f key :
  match getitem f key with
  | Raise e => e = KeyError /\ occurrences key (labels f) = 0
  | Ok (Series _) => occurrences key (labels f) = 1
  | Ok (SubFrame _) => 2 <= occurrences key (labels f)
  end.
Proof.
  unfold getitem, labels. rewrite <- occurrences_filter.
  destruct (filter (fun c => fst c = key) (cols f)) as [|c [|c' l]];
    cbn [length]; [done | done | lia].
Qed.

Context (lib : library) (df : frame string) (col_map : gmap string string).
Hypothesis mapped_in_df :
  forall t src, col_map !! t = Some src -> src ∈ labels df.

(** One step of the second loop raises exactly on a mapped label that
    several columns carry, and then [ValueError]. *)
Lemma build_step_outcome out t :
  match build_step df col_map out t with
  | Ok _ => forall src, col_map !! t = Some src ->
                        occurrences src (labels df) = 1
  | Raise e => e = ValueError
               /\ exists src, col_map !! t = Some src
                              /\ 2 <= occurrences src (labels df)
  end.
Proof.
  unfold build_step. destruct (col_map !! t) as [src|] eqn:Hsrc; [|done].
  pose proof (getitem_by_occurrences df src) as Hget.
  pose proof (occurrences_in src _ (mapped_in_df t src Hsrc)) as Hpos.
  destruct (getitem df src) as [[vals|several]|e]; cbn [bind].
  - unfold setitem. destruct (_ && _); intros ? [= <-]; done.
  - split; [done|]. by exists src.
  - destruct Hget as [_ H0]. lia.
Qed.

Lemma build_loop_outcome targets out :
  match for_each (build_step df col_map) targets out with
  | Ok _ => forall t src, t ∈ targets -> col_map !! t = Some src ->
                          occurrences src (labels df) = 1
  | Raise e => e = ValueError
               /\ exists t src, t ∈ targets /\ col_map !! t = Some src
                                /\ 2 <= occurrences src (labels df)
  end.
Proof.
  revert out. induction targets as [|t targets IH]; intros out.
  - cbn. intros t src Ht. by apply elem_of_nil in Ht.
  - cbn [for_each]. pose proof (build_step_outcome out t) as Hstep.
    destruct (build_step df col_map out t) as [out1|e]; cbn [bind].
    + specialize (IH out1).
      destruct (for_each (build_step df col_map) targets out1) as [out2|e].
      * intros t' src [->|Hin]%elem_of_cons; [apply Hstep | by apply IH].
      * destruct IH as [-> (t' & src & Hin & Hsrc & Hdup)].
        split; [done|]. exists t', src.
        split; [by apply list_elem_of_further | done].
    + destruct Hstep as [-> (src & Hsrc & Hdup)].
      split; [done|]. exists t, src.
      split; [apply list_elem_of_here | done].
Qed.
End CoercerFacts.

Lemma getitem_unique (f : frame string) key :
  NoDup (labels f) -> key ∈ labels f ->
  exists vals, getitem f key = Ok (Series vals).
Proof.
  intros Hnd Hin. pose proof (getitem_by_occurrences f key) as Hget.
  pose proof (occurrences_in key _ Hin) as Hpos.
  pose proof (occurrences_NoDup key _ Hnd) as Hle.
  destruct (getitem f key) as [[vals|several]|e].
  - by exists vals.
  - lia.
  - destruct Hget as [_ H0]. lia.
Qed.

Lemma set_columns_normalized lib (df : frame pyval) :
  exists df', set_columns df (normalize_cols (py_str lib) (labels df)) = Ok df'
              /\ labels df' = normalize_cols (py_str lib) (labels df).
Proof.
  unfold set_columns.
  assert (Hlen : length (normalize_cols (py_str lib) (labels df))
                 = length (labels df)).
  { unfold normalize_cols. rewrite append_loop_is_map. cbn [app].
    apply length_map. }
  unfold labels in Hlen at 2. rewrite length_map in Hlen.
  rewrite Hlen, Nat.eqb_refl. eexists. split; [done|].
  apply (set_columns_labels df). unfold set_columns.
  by rewrite Hlen, Nat.eqb_refl.
Qed.

Lemma small_in_int64 z : (Z.abs z <? 2 ^ 53)%Z = true -> in_int64 z = true.
Proof.
  intros H. apply Z.ltb_lt in H. unfold in_int64.
  change (2 ^ 53)%Z with 9007199254740992%Z in H.
  change (2 ^ 63)%Z with 9223372036854775808%Z.
  apply andb_true_iff. split; [apply Z.leb_le | apply Z.ltb_lt]; lia.
Qed.

Lemma whole_number_float z :
  is_integral (Decimal z 0) = true /\ whole_part (Decimal z 0) = z.
Proof.
  unfold is_integral, whole_part. cbn [dec_mant dec_exp Z.of_nat].
  change (10 ^ 0)%Z with 1%Z. rewrite Z.mod_1_r, Z.div_1_r. done.
Qed.

(** X10. The cast of a numeric column to [Int64], cell by cell, on a column
    that the two calls read without rounding (no infinity, whole numbers
    below [2 ^ 53] in size, whole floats within [int64]) and with a library
    that keeps such whole numbers as they are: it raises [TypeError] as
    soon as one cell is a number with a fractional part, and otherwise gives
    each cell's whole number, or [pd.NA] where the cell does not parse; 3.0
    is the whole number 3. *)
Theorem integer_cast_cell_by_cell (lib : library) (vals : list pyval) :
  (forall z, (Z.abs z <? 2 ^ 53)%Z = true -> float_of_int lib z = Decimal z 0) ->
  forallb (plain_number lib) vals = true ->
  astype_Int64 (to_numeric lib vals)
  = if existsb (is_fractional lib) vals then Raise TypeError
    else Ok (map (whole_or_NA lib) vals).
Proof.
  intros Hfloat Hplain.
  assert (Hcell : forall v, plain_number lib v = true ->
    astype_Int64_cell
      match to_numeric_cell lib v with
      | Some (NumInt z) => PFloat (float_of_int lib z)
      | Some (NumFloat x) => PFloat x
      | Some (NumInf negative) => PInf negative
      | None => PNaN
      end
    = if is_fractional lib v then Raise TypeError else Ok (whole_or_NA lib v)).
  { intros v. unfold plain_number, is_fractional, whole_or_NA.
    destruct (to_numeric_cell lib v) as [[z|x|b]|]; cbn [astype_Int64_cell];
      intros Hv; try discriminate Hv.
    - rewrite (Hfloat z Hv).
      destruct (whole_number_float z) as [-> ->].
      by rewrite (small_in_int64 z Hv).
    - destruct (is_integral x); cbn [negb orb andb] in *; [|done].
      by rewrite Hv.
    - done. }
  assert (Hinf : forall b, has_inf b (to_numeric lib vals) = false).
  { intros b. unfold to_numeric.
    destruct (_ && _).
    - clear Hplain. induction vals as [|v vals IH]; [done|].
      cbn [map has_inf existsb] in *. unfold has_inf in IH. rewrite IH.
      by destruct (to_numeric_cell lib v) as [[z|x|b']|].
    - induction vals as [|v vals IH]; [done|].
      cbn [forallb] in Hplain. apply andb_true_iff in Hplain as [Hv Hplain].
      cbn [map has_inf existsb] in *. unfold has_inf in IH.
      rewrite (IH Hplain). unfold plain_number in Hv.
      by destruct (to_numeric_cell lib v) as [[z|x|b']|]. }
  unfold astype_Int64, overflows. rewrite !Hinf. clear Hinf.
  unfold to_numeric.
  destruct (forallb is_int (map (to_numeric_cell lib) vals)
            && _) eqn:Hall.
  - apply andb_true_iff in Hall as [Hall _].
    induction vals as [|v vals IH]; [done|].
    cbn [forallb] in Hplain. apply andb_true_iff in Hplain as [Hv Hplain].
    cbn [map forallb] in Hall. apply andb_true_iff in Hall as [Hi Hall].
    cbn [map map_result existsb]. rewrite (IH Hplain Hall).
    unfold plain_number in Hv.
    destruct (to_numeric_cell lib v) as [[z|x|b]|] eqn:Hz; try discriminate Hi.
    assert (Hfv : is_fractional lib v = false)
      by (unfold is_fractional; by rewrite Hz).
    assert (Hwv : whole_or_NA lib v = PInt z)
      by (unfold whole_or_NA; by rewrite Hz).
    rewrite Hfv, Hwv. cbn [astype_Int64_cell]. rewrite (small_in_int64 z Hv).
    cbn [bind orb].
    by destruct (existsb (is_fractional lib) vals).
  - clear Hall. induction vals as [|v vals IH]; [done|].
    cbn [forallb] in Hplain. apply andb_true_iff in Hplain as [Hv Hplain].
    cbn [map map_result existsb]. rewrite (Hcell v Hv), (IH Hplain).
    destruct (is_fractional lib v); [done|]. cbn [bind orb].
    by destruct (existsb (is_fractional lib) vals).
Qed.

Lemma nearest_float_small z :
  (Z.abs z <? 2 ^ 53)%Z = true -> Reference.nearest_float z = Decimal z 0.
Proof.
  intros H. apply Z.ltb_lt in H. unfold Reference.nearest_float.
  assert (Hk : (Z.log2 (Z.abs z) - 52 <= 0)%Z).
  { destruct (Z.eq_dec (Z.abs z) 0%Z) as [->|Hne]; [done|].
    assert (Z.log2 (Z.abs z) < 53)%Z; [|lia].
    apply Z.log2_lt_pow2; lia. }
  apply Z.leb_le in Hk. by rewrite Hk.
Qed.

Lemma integer_cast_cell_by_cell_witness :
  astype_Int64 (to_numeric Reference.lib
                  [PInt 3; PFloat (Decimal 30 1); PStr " "; PNaN])
  = Ok [PInt 3; PInt 3; PNA; PNA].
Proof.
  rewrite (integer_cast_cell_by_cell Reference.lib _ nearest_float_small);
    reflexivity.
Defined.

(** X8. Two sheet headers that normalize to the same label, when a target is
    mapped to that label, abort the coercion with [ValueError]: [df[src]]
    is then a frame of several columns, which cannot be set to one key. *)
Theorem duplicate_mapped_header_raises (lib : library) (df : frame pyval)
    (t src : string) :
  let headers := normalize_cols (py_str lib) (labels df) in
  t ∈ TARGET_COLS ->
  build_col_map headers TARGET_COLS !! t = Some src ->
  2 <= occurrences src headers ->
  map_dataframe lib df = Raise ValueError.
Proof.
  intros headers Ht Hsrc Hdup. unfold map_dataframe.
  destruct (set_columns_normalized lib df) as (df' & -> & Hlab).
  cbn [bind]. rewrite Hlab. fold headers.
  unfold headers in Hdup. rewrite <- Hlab in Hdup.
  assert (Hmapped : forall t' src',
            build_col_map headers TARGET_COLS !! t' = Some src' ->
            src' ∈ labels df').
  { intros t' src' H'. rewrite Hlab.
    by apply (build_col_map_in_headers headers TARGET_COLS t'). }
  pose proof (build_loop_outcome df' (build_col_map headers TARGET_COLS)
                Hmapped TARGET_COLS empty_frame) as Hloop.
  destruct (for_each _ TARGET_COLS empty_frame) as [out|e].
  - specialize (Hloop t src Ht Hsrc). lia.
  - cbn [bind]. by destruct Hloop as [-> _].
Qed.

Lemma duplicate_mapped_header_raises_witness :
  "date" ∈ TARGET_COLS
  /\ map_dataframe Reference.lib MoreExamples.two_date_headers
     = Raise ValueError.
Proof.
  assert (Ht : "date" ∈ TARGET_COLS) by (by apply (bool_decide_unpack _)).
  split; [exact Ht|].
  apply (duplicate_mapped_header_raises Reference.lib
           MoreExamples.two_date_headers "date" "date" Ht).
  - vm_compute. reflexivity.
  - vm_compute. lia.
Defined.

(** X11. A cleaned text cell is [pd.NA] exactly when the trimmed text of the
    cell is [nan]; otherwise it is that trimmed text, which has no white
    space at either end. *)
Theorem text_cells_are_trimmed (lib : library) (v : pyval) :
  match clean_text lib v with
  | PStr s => s = PyStr.strip (py_str lib v) /\ PyStr.strip s = s /\ s <> "nan"
  | PNA => PyStr.strip (py_str lib v) = "nan"
  | _ => False
  end
  /\ (PyStr.strip (py_str lib v) = "nan" -> clean_text lib v = PNA).
Proof.
  unfold clean_text.
  destruct (String.eqb_spec (PyStr.strip (py_str lib v)) "nan") as [Heq|Hne].
  - done.
  - split; [|done]. split; [done|]. split; [apply strip_idempotent | exact Hne].
Qed.

(** X12. A text cell of white space only is cleaned to the empty text, which is a
    present value, and is written to the CSV payload exactly like an absent
    cell. *)
Theorem blank_text_is_written_like_absent (lib : library) (s : string) :
  PyStr.all_chars PyStr.isspace s = true ->
  clean_text lib (PStr s) = PStr EmptyString
  /\ isna (clean_text lib (PStr s)) = false
  /\ csv_field lib (clean_text lib (PStr s)) = csv_field lib PNA.
Proof.
  intros Hs.
  assert (E : clean_text lib (PStr s) = PStr EmptyString).
  { unfold clean_text, PyStr.strip. cbn [py_str].
    by rewrite (lstrip_blank s Hs). }
  rewrite E. done.
Qed.

Lemma blank_text_is_written_like_absent_witness :
  PyStr.all_chars PyStr.isspace "  " = true
  /\ csv_field Reference.lib (clean_text Reference.lib (PStr "  "))
     = csv_field Reference.lib PNA.
Proof.
  assert (H : PyStr.all_chars PyStr.isspace "  " = true) by reflexivity.
  split; [exact H|].
  exact (proj2 (proj2 (blank_text_is_written_like_absent Reference.lib _ H))).
Defined.

(** ** The ingestion run *)

(** X14. The three outcomes of a run. A coercion failure sends nothing to the
    store; a rejected bulk command leaves the table as it was, with no
    commit; an accepted one is committed with its rows. The connection, once
    opened, is always closed. *)
Theorem main_outcomes {R : Type}
    (store_copy : string -> string -> option (list R)) (lib : library)
    (df_raw : frame pyval) (table0 : list R) :
  match map_dataframe lib df_raw with
  | Raise e => main store_copy lib df_raw table0 = (Raise e, table0, [])
  | Ok df =>
      let sql := copy_sql TARGET_TABLE TARGET_COLS in
      let payload := to_csv lib df in
      match store_copy sql payload with
      | None =>
          main store_copy lib df_raw table0
          = (Raise StoreError, table0, [EvCopy sql payload; EvClose])
      | Some rows =>
          main store_copy lib df_raw table0
          = (Ok tt, table0 ++ rows, [EvCopy sql payload; EvCommit; EvClose])
      end
  end.
Proof.
  unfold main. destruct (map_dataframe lib df_raw) as [df|e]; [|done].
  cbv zeta. unfold load, copy_df_to_postgres, copy_expert.
  destruct (store_copy _ _) as [rows|]; reflexivity.
Qed.

(** ** The API over the target table *)

Section ApiFacts.
Import Api.

Lemma dict_set_fresh {A} k (v : A) d :
  k ∉ map fst d -> dict_set k v d = d ++ [(k, v)].
Proof.
  induction d as [|kv d IH]; [done|]. cbn [map dict_set app].
  intros Hk. destruct (String.eqb_spec (fst kv) k) as [Heq|Hne].
  - exfalso. apply Hk. rewrite Heq. apply list_elem_of_here.
  - rewrite IH; [done|]. intros Hin. by apply Hk, list_elem_of_further.
Qed.

Lemma dict_set_Forall {A} (P : string * A -> Prop) k v d :
  Forall P d -> P (k, v) -> Forall P (dict_set k v d).
Proof.
  intros Hd Hkv. induction Hd as [|kv d Hx Hd IH]; cbn [dict_set].
  - by constructor.
  - destruct (String.eqb (fst kv) k); constructor; done.
Qed.

Context (float_of_decimal : decimal -> decimal).

Lemma row_to_dict_loop (m acc : list (string * value)) :
  NoDup (map fst acc ++ map fst m) ->
  fold_left (fun out kv => dict_set (fst kv) (to_json float_of_decimal (snd kv)) out)
    m acc
  = acc ++ map (fun kv => (fst kv, to_json float_of_decimal (snd kv))) m.
Proof.
  revert acc. induction m as [|kv m IH]; intros acc Hnd; cbn [fold_left map].
  - by rewrite app_nil_r.
  - cbn [map] in Hnd.
    assert (Hfresh : fst kv ∉ map fst acc).
    { apply NoDup_app in Hnd as (_ & Hdisj & _). intros Hin.
      apply (Hdisj _ Hin), list_elem_of_here. }
    cbn beta. rewrite (dict_set_fresh _ _ _ Hfresh), IH.
    + by rewrite <- app_assoc.
    + rewrite map_app. cbn [map]. rewrite <- app_assoc. exact Hnd.
Qed.

Lemma to_json_safe v : json_safe (to_json float_of_decimal v).
Proof. by destruct v. Qed.

Lemma small_number_fixed hi n :
  1 <= n -> n <= hi -> n < 100 -> small_number hi (fixed_digits 2 n) = Some n.
Proof.
  intros H1 Hhi H100. unfold small_number.
  rewrite fixed_digits_length, Nat.leb_refl.
  rewrite parse_nat_fixed by (done || (change (10 ^ 2) with 100; lia)).
  rewrite (proj2 (Nat.leb_le 1 n) H1), (proj2 (Nat.leb_le n hi) Hhi). done.
Qed.

Lemma fixed_digits_first_digit w n :
  match fixed_digits (S w) n with
  | String c _ => is_Some_b (digit_of c) = true
  | EmptyString => False
  end.
Proof.
  pose proof (fixed_digits_digits (S w) n) as Hd.
  pose proof (fixed_digits_length (S w) n) as Hl.
  destruct (fixed_digits (S w) n) as [|c s]; [discriminate Hl|].
  cbn [PyStr.all_chars] in Hd. by apply andb_true_iff in Hd as [Hc _].
Qed.

Lemma day_number_fixed n :
  1 <= n -> n <= 31 -> day_number (fixed_digits 2 n) = Some n.
Proof.
  intros H1 H31. unfold day_number.
  pose proof (fixed_digits_first_digit 1 n) as Hc.
  pose proof (small_number_fixed 31 n H1 H31 ltac:(lia)) as Hs.
  destruct (fixed_digits 2 n) as [|c s]; [done|].
  destruct (Ascii.eqb_spec c " ") as [->|Hne]; [discriminate Hc|].
  destruct c as [[] [] [] [] [] [] [] []]; try exact Hs. done.
Qed.

(** The ISO text of a valid date is accepted by [strptime]. *)
Lemma strptime_ymd_isoformat d :
  valid_date d = true -> strptime_ymd (isoformat d) = Some d.
Proof.
  intros Hv. destruct (valid_date_bounds d Hv) as (Hy & Hm & Hd).
  pose proof Hv as Hv'. unfold valid_date in Hv'.
  rewrite !andb_true_iff in Hv'.
  destruct Hv' as [[[[[_ _] Hm1] Hm12] Hd1] Hdm].
  apply Nat.leb_le in Hm1, Hm12, Hd1, Hdm.
  assert (Hd31 : day d <= 31).
  { revert Hdm. unfold days_in_month.
    destruct (month d) as [|[|[|[|[|[|[|[|[|[|[|[|[|k]]]]]]]]]]]]];
      try destruct (is_leap (year d)); lia. }
  unfold strptime_ymd, isoformat.
  rewrite !zero_padded_small by done.
  rewrite split_three by apply fixed_digits_no_dash.
  rewrite fixed_digits_length. cbn [Nat.eqb].
  rewrite parse_nat_fixed by (done || lia).
  rewrite small_number_fixed by (done || (change (10 ^ 2) with 100 in Hm; lia)).
  rewrite day_number_fixed by done.
  destruct d as [y m dd]. cbn [year month day] in *. by rewrite Hv.
Qed.

(** The day-first text of the sheets is not a date for [strptime]. *)
Lemma strptime_ymd_dmy d :
  valid_date d = true -> strptime_ymd (dmy_text d) = None.
Proof.
  intros Hv. destruct (valid_date_bounds d Hv) as (Hy & Hm & Hd).
  unfold strptime_ymd, dmy_text.
  rewrite !zero_padded_small by done.
  rewrite split_three by apply fixed_digits_no_dash.
  by rewrite fixed_digits_length.
Qed.
End ApiFacts.

(** X15. [row_to_dict] on a row whose column names are distinct keeps the keys
    and their order, and changes the values by [to_json] only: a date to its
    ISO text, a [Decimal] to a float, anything else ([None] too) not at
    all. *)
Theorem row_to_dict_converts_values (float_of_decimal : decimal -> decimal)
    (m : list (string * Api.value)) :
  NoDup (map fst m) ->
  Api.row_to_dict float_of_decimal (Api.SqlRow m)
  = map (fun kv => (fst kv, Api.to_json float_of_decimal (snd kv))) m.
Proof.
  intros Hnd. unfold Api.row_to_dict.
  by rewrite (row_to_dict_loop float_of_decimal m []).
Qed.

Lemma row_to_dict_converts_values_witness :
  NoDup (map fst [("id", Api.VInt 7); ("date", Api.VDate (Date 2024 3 5))])
  /\ Api.row_to_dict (fun x => x)
       (Api.SqlRow [("id", Api.VInt 7); ("date", Api.VDate (Date 2024 3 5))])
     = [("id", Api.VInt 7); ("date", Api.VStr "2024-03-05")].
Proof.
  assert (H : NoDup (map fst [("id", Api.VInt 7);
                              ("date", Api.VDate (Date 2024 3 5))]))
    by (by apply (bool_decide_unpack _)).
  split; [exact H|].
  rewrite (row_to_dict_converts_values (fun x => x) _ H).
  vm_compute. reflexivity.
Defined.

(** X16. Whatever it is given, [row_to_dict] answers a dictionary that holds no
    date and no [Decimal]; what is neither a row nor a mapping gives the
    empty dictionary. *)
Theorem row_to_dict_is_json_safe (float_of_decimal : decimal -> decimal)
    (row : Api.rowlike) :
  Forall (fun kv => Api.json_safe (snd kv)) (Api.row_to_dict float_of_decimal row)
  /\ Api.row_to_dict float_of_decimal Api.Opaque = [].
Proof.
  split; [|reflexivity]. unfold Api.row_to_dict.
  generalize (match row with
              | Api.SqlRow m | Api.DictLike m => m
              | Api.Opaque => []
              end).
  intros m.
  assert (H : Forall (fun kv : string * Api.value => Api.json_safe (snd kv)) [])
    by constructor.
  revert H. generalize (@nil (string * Api.value)).
  induction m as [|kv m IH]; intros acc Hacc; [exact Hacc|].
  cbn [fold_left]. apply IH, dict_set_Forall; [done|]. apply to_json_safe.
Qed.

(** X17. The date that [row_to_dict] writes is a date for the validator of the
    API models: reading back the ISO text of a valid date gives the date.
    [None] goes through, and the day-first text of the sheets is refused. *)
Theorem parse_date_reads_row_to_dict (float_of_decimal : decimal -> decimal)
    (d : date) :
  valid_date d = true ->
  Api.parse_date (Api.to_json float_of_decimal (Api.VDate d)) = Ok (Api.VDate d)
  /\ Api.parse_date Api.VNone = Ok Api.VNone
  /\ Api.parse_date (Api.VStr (dmy_text d)) = Raise ValueError.
Proof.
  intros Hv. cbn [Api.to_json Api.parse_date].
  by rewrite (strptime_ymd_isoformat d Hv), (strptime_ymd_dmy d Hv).
Qed.

Lemma parse_date_reads_row_to_dict_witness :
  valid_date (Date 2024 3 5) = true
  /\ Api.parse_date (Api.VStr "2024-03-05") = Ok (Api.VDate (Date 2024 3 5)).
Proof.
  assert (H : valid_date (Date 2024 3 5) = true) by reflexivity.
  split; [exact H|].
  exact (proj1 (parse_date_reads_row_to_dict (fun x => x) _ H)).
Defined.

Section HandlerFacts.
Import Api.
Context (float_of_decimal : decimal -> decimal).
Context (adapt : string -> value -> value).

Lemma update_values_lookup (payload : gmap string value) k :
  update_values payload !! k
  = match payload !! k with
    | Some v => if is_None v then None else Some v
    | None => None
    end.
Proof.
  unfold update_values.
  destruct (payload !! k) as [v|] eqn:Hk.
  - destruct (is_None v) eqn:Hv.
    + apply map_lookup_filter_None. right. intros v' Hv'.
      rewrite Hk in Hv'. injection Hv' as <-. cbn. by rewrite Hv.
    + apply map_lookup_filter_Some. by split.
  - apply map_lookup_filter_None. by left.
Qed.

Lemma update_values_empty (payload : gmap string value) :
  update_values payload = ∅ <->
  forall k v, payload !! k = Some v -> v = VNone.
Proof.
  split.
  - intros He k v Hk.
    pose proof (update_values_lookup payload k) as Hl.
    rewrite He, lookup_empty, Hk in Hl.
    destruct v; try discriminate Hl. done.
  - intros Hall. apply map_eq. intros k.
    rewrite update_values_lookup, lookup_empty.
    destruct (payload !! k) as [v|] eqn:Hk; [|done].
    by rewrite (Hall k v Hk).
Qed.

Lemma dict_set_not_nil {A} k (v : A) d : dict_set k v d <> [].
Proof. destruct d as [|kv d]; cbn; [done|]. by destruct (String.eqb _ _). Qed.

Lemma row_to_dict_not_nil kv m :
  row_to_dict float_of_decimal (SqlRow (kv :: m)) <> [].
Proof.
  unfold row_to_dict. cbn [fold_left].
  assert (H : dict_set (fst kv) (to_json float_of_decimal (snd kv)) [] <> [])
    by apply dict_set_not_nil.
  revert H. generalize (dict_set (fst kv) (to_json float_of_decimal (snd kv)) []).
  induction m as [|kv' m IH]; intros acc Hacc; [exact Hacc|].
  cbn [fold_left]. apply IH, dict_set_not_nil.
Qed.

(** A stored row is found, and found non-empty. *)
Lemma get_trp_found (db : table) item_id fields :
  db !! item_id = Some fields ->
  exists row, fetch_trp_by_id float_of_decimal db item_id = Some row
              /\ get_trp float_of_decimal db item_id = Success row.
Proof.
  intros Hdb. unfold get_trp, fetch_trp_by_id. rewrite Hdb.
  eexists. split; [done|].
  pose proof (row_to_dict_not_nil ("id", VInt item_id) fields) as Hne.
  destruct (row_to_dict _ _); [done|]. done.
Qed.

Lemma get_trp_missing (db : table) item_id :
  db !! item_id = None ->
  get_trp float_of_decimal db item_id = HttpError 404 "Record not found".
Proof. intros Hdb. unfold get_trp, fetch_trp_by_id. by rewrite Hdb. Qed.
End HandlerFacts.

(** X18. [update_trp] refuses in two cases, and then leaves the table as it was:
    with 404 when the key is not in the table, whatever the payload; with
    400 when the key is there and every field of the payload is [None]. *)
Theorem update_trp_rejections (float_of_decimal : decimal -> decimal)
    (adapt : string -> Api.value -> Api.value)
    (store_error : list (string * Api.value) -> option Api.db_error)
    (db : Api.table)
    (item_id : Z) (payload : gmap string Api.value)
    (status : nat) (detail : string) :
  fst (Api.update_trp float_of_decimal adapt store_error db item_id payload)
  = Api.HttpError status detail ->
  snd (Api.update_trp float_of_decimal adapt store_error db item_id payload)
  = db
  /\ ((status = 404 /\ db !! item_id = None)
      \/ (status = 400 /\ is_Some (db !! item_id)
          /\ forall k v, payload !! k = Some v -> v = Api.VNone)).
Proof.
  unfold Api.update_trp.
  destruct (db !! item_id) as [fields|] eqn:Hdb.
  - destruct (bool_decide (Api.update_values payload = ∅)) eqn:He;
      cbn [fst snd].
    + intros [= <- _]. split; [done|]. right.
      apply bool_decide_eq_true in He.
      split; [done|]. split; [by eexists|].
      by apply update_values_empty.
    + destruct (store_error _); cbn [fst snd]; discriminate.
  - cbn [fst snd]. intros [= <- _]. split; [done|]. by left.
Qed.

Lemma update_trp_rejections_witness :
  fst (Api.update_trp (fun x => x) (fun _ v => v) (fun _ => None) ∅ 7
         {["quantity" := Api.VInt 3]})
  = Api.HttpError 404 "Record not found"
  /\ snd (Api.update_trp (fun x => x) (fun _ v => v) (fun _ => None) ∅ 7
            {["quantity" := Api.VInt 3]}) = ∅.
Proof.
  assert (H : fst (Api.update_trp (fun x => x) (fun _ v => v) (fun _ => None)
                     ∅ 7 {["quantity" := Api.VInt 3]})
              = Api.HttpError 404 "Record not found") by reflexivity.
  split; [exact H|].
  exact (proj1 (update_trp_rejections _ _ _ _ _ _ _ _ H)).
Defined.

(** X19. When the key is in the table and some field of the payload is not
    [None], [update_trp] sends the store the row in which every column named
    by a field that is not [None] takes the value the store keeps of it and
    every other column keeps its value (a [None] never erases one). When
    the store takes the row, it replaces the stored one, the other rows are
    unchanged, and the answer is the row that [get_trp] then finds. When
    the store raises, the handler does not catch the exception and the
    table is as it was. *)
Theorem update_trp_writes_given_fields (float_of_decimal : decimal -> decimal)
    (adapt : string -> Api.value -> Api.value)
    (store_error : list (string * Api.value) -> option Api.db_error)
    (db : Api.table)
    (item_id : Z) (payload : gmap string Api.value)
    (fields : list (string * Api.value)) (k0 : string) (v0 : Api.value) :
  db !! item_id = Some fields ->
  payload !! k0 = Some v0 -> Api.is_None v0 = false ->
  let fields' :=
    map (fun kv => (fst kv,
                    match payload !! fst kv with
                    | Some v => if Api.is_None v then snd kv
                                else adapt (fst kv) v
                    | None => snd kv
                    end)) fields in
  let run := Api.update_trp float_of_decimal adapt store_error db item_id
               payload in
  map fst fields' = map fst fields
  /\ match store_error fields' with
     | Some e => run = (Api.Unhandled e, db)
     | None =>
         snd run = <[item_id := fields']> db
         /\ (forall j, j <> item_id -> snd run !! j = db !! j)
         /\ exists row,
              fst run = Api.Success (Some row)
              /\ Api.get_trp float_of_decimal (snd run) item_id
                 = Api.Success row
     end.
Proof.
  intros Hdb Hk0 Hv0 fields' run.
  assert (Hne : Api.update_values payload <> ∅).
  { intros He. rewrite update_values_empty in He.
    rewrite (He k0 v0 Hk0) in Hv0. discriminate Hv0. }
  assert (Hsql : Api.sql_update adapt (Api.update_values payload) fields
                 = fields').
  { unfold Api.sql_update, fields'. apply map_ext. intros kv.
    rewrite update_values_lookup.
    destruct (payload !! fst kv) as [v|]; [|done]. by destruct (Api.is_None v). }
  split; [unfold fields'; by rewrite map_map|].
  subst run. unfold Api.update_trp. rewrite Hdb.
  rewrite (bool_decide_eq_false_2 _ Hne). cbv zeta. rewrite Hsql.
  destruct (store_error fields') as [e|]; [done|]. cbn [fst snd].
  split; [done|].
  split; [intros j Hj; by rewrite lookup_insert_ne|].
  destruct (get_trp_found float_of_decimal (<[item_id := fields']> db)
              item_id fields') as (row & Hfetch & Hget).
  { apply lookup_insert_eq. }
  exists row. by rewrite Hfetch.
Qed.

Lemma update_trp_writes_given_fields_witness :
  snd (Api.update_trp (fun x => x) (fun _ v => v) (fun _ => None)
         {[ 7%Z := [("day", Api.VStr "Mon"); ("quantity", Api.VInt 1)] ]} 7
         {[ "quantity" := Api.VInt 3 ]})
  = <[ 7%Z := [("day", Api.VStr "Mon"); ("quantity", Api.VInt 3)] ]>
      {[ 7%Z := [("day", Api.VStr "Mon"); ("quantity", Api.VInt 1)] ]}.
Proof.
  refine (proj1 (proj2 (update_trp_writes_given_fields (fun x => x)
            (fun _ v => v) (fun _ => None)
            {[ 7%Z := [("day", Api.VStr "Mon"); ("quantity", Api.VInt 1)] ]} 7
            {[ "quantity" := Api.VInt 3 ]}
            [("day", Api.VStr "Mon"); ("quantity", Api.VInt 1)]
            "quantity" (Api.VInt 3) _ _ _))); reflexivity.
Defined.

(** X20. [delete_trp] on a stored key removes that row and no other: [get_trp]
    then answers 404 for the key and what it answered before for every other
    key, and a second [delete_trp] answers 404. On a key that is not stored
    it answers 404 and leaves the table as it was. *)
Theorem delete_trp_removes_one_row (float_of_decimal : decimal -> decimal)
    (db : Api.table) (item_id : Z) :
  match db !! item_id with
  | Some _ =>
      let db' := snd (Api.delete_trp db item_id) in
      fst (Api.delete_trp db item_id) = Api.Success tt
      /\ Api.get_trp float_of_decimal db' item_id
         = Api.HttpError 404 "Record not found"
      /\ (forall j, j <> item_id ->
            Api.get_trp float_of_decimal db' j = Api.get_trp float_of_decimal db j)
      /\ Api.delete_trp db' item_id
         = (Api.HttpError 404 "Record not found", db')
  | None =>
      Api.delete_trp db item_id = (Api.HttpError 404 "Record not found", db)
  end.
Proof.
  unfold Api.delete_trp.
  destruct (db !! item_id) as [fields|] eqn:Hdb; [|done]. cbn [fst snd].
  split; [done|]. split; [|split].
  - apply get_trp_missing. apply lookup_delete_eq.
  - intros j Hj. unfold Api.get_trp, Api.fetch_trp_by_id.
    by rewrite lookup_delete_ne.
  - by rewrite lookup_delete_eq.
Qed.

(** X21. [create_trp] has three outcomes, by what the store answers to the
    row of the eleven columns of the payload ([None] where the payload has
    no value). On an [IntegrityError] (a key already taken is one) it
    answers 400 and the table is as it was; any other error of the store is
    not caught, and the table is as it was; otherwise the row is stored
    under the new key, which was free, no other row is touched, and the
    answer is the row that [get_trp] then finds under that key, with the
    key as its [id]. It never answers 500. *)
Theorem create_trp_outcomes (float_of_decimal : decimal -> decimal)
    (adapt : string -> Api.value -> Api.value)
    (store_error : list (string * Api.value) -> option Api.db_error)
    (next_id : Api.table -> Z)
    (integrity_detail : string)
    (db : Api.table) (payload : gmap string Api.value) :
  let fields :=
    map (fun k => (k, adapt k (default Api.VNone (payload !! k))))
      TARGET_COLS in
  let run := Api.create_trp float_of_decimal adapt store_error next_id
               integrity_detail db payload in
  match Api.insert_error store_error db (next_id db) fields with
  | Some Api.IntegrityError => run = (Api.HttpError 400 integrity_detail, db)
  | Some e => run = (Api.Unhandled e, db)
  | None =>
      db !! next_id db = None
      /\ snd run = <[next_id db := fields]> db
      /\ (forall j, j <> next_id db -> snd run !! j = db !! j)
      /\ exists row,
           fst run = Api.Success row
           /\ Api.get_trp float_of_decimal (snd run) (next_id db)
              = Api.Success row
           /\ Api.dict_get "id" row = Some (Api.VInt (next_id db))
  end
  /\ (is_Some (db !! next_id db) ->
      run = (Api.HttpError 400 integrity_detail, db)).
Proof.
  intros fields run. subst run. unfold Api.create_trp. fold fields.
  split.
  2:{ intros Htaken. unfold Api.insert_error.
      by rewrite (bool_decide_eq_true_2 _ Htaken). }
  destruct (Api.insert_error store_error db (next_id db) fields)
    as [[|]|] eqn:Herr; [done | done |].
  unfold Api.insert_error in Herr.
  destruct (bool_decide (is_Some (db !! next_id db))) eqn:Hfree;
    [discriminate Herr|].
  apply bool_decide_eq_false in Hfree.
  assert (Hnone : db !! next_id db = None).
  { destruct (db !! next_id db) eqn:E; [|done]. exfalso. apply Hfree. by eexists. }
  destruct (get_trp_found float_of_decimal (<[next_id db := fields]> db)
              (next_id db) fields) as (row & Hfetch & Hget).
  { apply lookup_insert_eq. }
  cbv zeta. rewrite Hfetch.
  assert (Hrow : row <> []).
  { intros ->. unfold Api.get_trp in Hget. rewrite Hfetch in Hget.
    discriminate Hget. }
  destruct row as [|kv row]; [done|]. cbn [Api.falsy fst snd default].
  split; [done|]. split; [done|].
  split; [intros j Hj; by rewrite lookup_insert_ne|].
  eexists. split; [done|]. split; [done|].
  unfold Api.fetch_trp_by_id in Hfetch. rewrite lookup_insert_eq in Hfetch.
  injection Hfetch as <-. vm_compute. reflexivity.
Qed.

(** ** The payload of the bulk load *)

Section CsvFacts.
Import PyStr Csv.

Lemma string_app_empty_l (s : string) : EmptyString +:+ s = s.
Proof. reflexivity. Qed.

Lemma parity_app inq a b : parity inq (a +:+ b) = parity (parity inq a) b.
Proof.
  revert inq. induction a as [|c a IH]; intros inq; [done|].
  rewrite string_app_cons. cbn [parity]. apply IH.
Qed.

Lemma unquoted_app c inq a b :
  unquoted c inq (a +:+ b) = unquoted c inq a || unquoted c (parity inq a) b.
Proof.
  revert inq. induction a as [|x a IH]; intros inq; [done|].
  rewrite string_app_cons. cbn [unquoted parity].
  destruct (Ascii.eqb x dquote); rewrite IH; [done|].
  by rewrite orb_assoc.
Qed.

(** A stretch of text with no line feed outside quotes stays on its line. *)
Lemma lines_from_app inq cur a rest :
  unquoted LF inq a = false ->
  lines_from inq cur (a +:+ rest) = lines_from (parity inq a) (cur +:+ a) rest.
Proof.
  revert inq cur. induction a as [|c a IH]; intros inq cur H.
  - by rewrite string_app_empty_r.
  - rewrite string_app_cons. cbn [lines_from parity]. cbn [unquoted] in H.
    destruct (Ascii.eqb c dquote).
    + rewrite (IH _ _ H). by rewrite string_app_assoc.
    + apply orb_false_iff in H as [Hc H]. rewrite Hc.
      rewrite (IH _ _ H). by rewrite string_app_assoc.
Qed.

Lemma lines_from_line cur a rest :
  unquoted LF false a = false -> parity false a = false ->
  lines_from false cur (a +:+ String LF rest)
  = (cur +:+ a) :: lines_from false EmptyString rest.
Proof.
  intros Hu Hp. rewrite (lines_from_app _ _ _ _ Hu), Hp. reflexivity.
Qed.

Lemma concat_cons (x : string) xs :
  String.concat EmptyString (x :: xs) = x +:+ String.concat EmptyString xs.
Proof.
  destruct xs as [|y xs]; [by rewrite string_app_empty_r|]. reflexivity.
Qed.

(** The lines of a text whose lines are sealed: balanced quotes, and no
    line feed outside them. *)
Lemma lines_from_concat (lines : list string) :
  Forall (fun l => unquoted LF false l = false /\ parity false l = false)
    lines ->
  lines_from false EmptyString
    (String.concat EmptyString
       (map (fun l => l +:+ String LF EmptyString) lines))
  = lines.
Proof.
  induction 1 as [|l lines [Hu Hp] _ IH]; [done|].
  cbn [map]. rewrite concat_cons, string_app_assoc, string_app_cons.
  rewrite string_app_empty_l, (lines_from_line _ _ _ Hu Hp), IH. done.
Qed.

(** *** Fields *)

Lemma fields_from_plain saw cur p rest :
  all_chars (fun c => negb (Ascii.eqb c "," || Ascii.eqb c dquote)) p = true ->
  fields_from false saw cur (p +:+ rest)
  = fields_from false saw (cur +:+ p) rest.
Proof.
  revert cur. induction p as [|c p IH]; intros cur H.
  - by rewrite string_app_empty_r.
  - rewrite string_app_cons. cbn [all_chars] in H.
    apply andb_true_iff in H as [Hc H].
    apply negb_true_iff, orb_false_iff in Hc as [Hcomma Hquote].
    cbn [fields_from]. rewrite Hquote, Hcomma.
    rewrite (IH _ H). by rewrite string_app_assoc.
Qed.

Lemma fields_from_quoted saw cur s rest :
  match rest with
  | EmptyString => True
  | String c _ => Ascii.eqb c dquote = false
  end ->
  fields_from true saw cur (double_quotes s +:+ String dquote rest)
  = fields_from false saw (cur +:+ s) rest.
Proof.
  intros Hrest. revert cur. induction s as [|c s IH]; intros cur.
  - rewrite string_app_empty_r. cbn [double_quotes].
    rewrite string_app_empty_l. cbn [fields_from].
    change (Ascii.eqb dquote dquote) with true. cbv iota.
    destruct rest as [|c' rest']; [done|]. by rewrite Hrest.
  - cbn [double_quotes]. destruct (Ascii.eqb c dquote) eqn:Hc.
    + rewrite !string_app_cons. cbn [fields_from]. rewrite Hc.
      rewrite IH. by rewrite string_app_assoc.
    + rewrite string_app_cons. cbn [fields_from]. rewrite Hc.
      rewrite IH. by rewrite string_app_assoc.
Qed.

Lemma plain_char_no_sep p :
  all_chars plain_char p = true ->
  all_chars (fun c => negb (Ascii.eqb c "," || Ascii.eqb c dquote)) p = true.
Proof.
  apply all_chars_impl. intros c. unfold plain_char.
  destruct (Ascii.eqb c ","), (Ascii.eqb c dquote); done.
Qed.

(** One field, at the end of a line or before a comma. *)
Lemma fields_from_field text value :
  field_of text value ->
  fields_from false false EmptyString text = Some [value]
  /\ forall rest,
       fields_from false false EmptyString (text +:+ String "," rest)
       = option_map (cons value) (fields_from false false EmptyString rest).
Proof.
  intros [[Hp ->]|(s & -> & ->)].
  - apply plain_char_no_sep in Hp. split.
    + rewrite <- (string_app_empty_r text) at 1.
      rewrite (fields_from_plain _ _ _ _ Hp). reflexivity.
    + intros rest. rewrite (fields_from_plain _ _ _ _ Hp).
      rewrite string_app_empty_l. reflexivity.
  - unfold quoted. split.
    + cbn [fields_from]. change (Ascii.eqb dquote dquote) with true.
      cbv iota. rewrite fields_from_quoted by done. reflexivity.
    + intros rest. rewrite string_app_cons, string_app_assoc, string_app_cons.
      rewrite string_app_empty_l.
      cbn [fields_from]. change (Ascii.eqb dquote dquote) with true.
      cbv iota. rewrite fields_from_quoted by reflexivity. reflexivity.
Qed.

Lemma fields_from_join texts values :
  texts <> [] ->
  Forall2 field_of texts values ->
  fields_from false false EmptyString (join "," texts) = Some values.
Proof.
  intros Hne H. induction H as [|t v texts values Htv H IH]; [done|].
  destruct (fields_from_field t v Htv) as [Hend Hstep].
  destruct H as [|t' v' texts' values' Htv' H'].
  - exact Hend.
  - rewrite join_cons_cons. rewrite string_app_cons, string_app_empty_l.
    rewrite Hstep, IH by done. reflexivity.
Qed.

(** *** Quotes are balanced, and a line end stands inside them *)

Lemma plain_sealed c inq p :
  all_chars plain_char p = true ->
  Ascii.eqb c LF || Ascii.eqb c CR = true ->
  parity inq p = inq /\ unquoted c inq p = false.
Proof.
  intros Hp Hc. induction p as [|x p IH]; [done|].
  cbn [all_chars] in Hp. apply andb_true_iff in Hp as [Hx Hp].
  destruct (IH Hp) as [IH1 IH2]. cbn [parity unquoted].
  unfold plain_char in Hx.
  apply negb_true_iff in Hx.
  apply orb_false_iff in Hx as [Hx Hcr].
  apply orb_false_iff in Hx as [Hx Hlf].
  apply orb_false_iff in Hx as [_ Hq]. rewrite Hq, IH1, IH2.
  split; [done|]. rewrite orb_false_r.
  apply orb_true_iff in Hc as [Hc|Hc]; apply Ascii.eqb_eq in Hc; subst c.
  - by rewrite Hlf.
  - by rewrite Hcr.
Qed.

Lemma double_quotes_sealed c s :
  Ascii.eqb c dquote = false ->
  parity true (double_quotes s) = true
  /\ unquoted c true (double_quotes s) = false.
Proof.
  intros Hc. induction s as [|x s [IH1 IH2]]; [done|].
  cbn [double_quotes]. destruct (Ascii.eqb x dquote) eqn:Hx.
  - cbn [parity unquoted]. rewrite Hx. cbn [negb]. done.
  - cbn [parity unquoted]. rewrite Hx. cbn [negb andb orb].
    rewrite andb_false_r. done.
Qed.

Lemma field_sealed c text value :
  field_of text value ->
  Ascii.eqb c LF || Ascii.eqb c CR = true ->
  parity false text = false /\ unquoted c false text = false.
Proof.
  intros [[Hp _]|(s & -> & _)] Hc; [by apply plain_sealed|].
  assert (Hq : Ascii.eqb c dquote = false).
  { apply orb_true_iff in Hc as [Hc|Hc]; apply Ascii.eqb_eq in Hc; by subst c. }
  destruct (double_quotes_sealed c s Hq) as [H1 H2].
  unfold quoted. cbn [parity unquoted].
  change (Ascii.eqb dquote dquote) with true. cbv iota. cbn [negb].
  rewrite parity_app, unquoted_app, H1, H2. done.
Qed.

Lemma join_sealed c texts values :
  Forall2 field_of texts values ->
  Ascii.eqb c LF || Ascii.eqb c CR = true ->
  parity false (join "," texts) = false
  /\ unquoted c false (join "," texts) = false.
Proof.
  intros H Hc. induction H as [|t v texts values Htv H [IH1 IH2]]; [done|].
  destruct (field_sealed c t v Htv Hc) as [H1 H2].
  destruct H as [|t' v' texts' values' Htv' H']; [done|].
  rewrite join_cons_cons, string_app_cons, string_app_empty_l.
  rewrite parity_app, unquoted_app, H1, H2. cbn [parity unquoted orb].
  change (Ascii.eqb "," dquote) with false. cbv iota.
  rewrite IH1, IH2.
  assert (Hcomma : Ascii.eqb "," c = false).
  { apply orb_true_iff in Hc as [Hc|Hc]; apply Ascii.eqb_eq in Hc; by subst c. }
  by rewrite Hcomma.
Qed.

(** *** Line ends *)

Lemma last_char_app s c : last_char (s +:+ String c EmptyString) = Some c.
Proof.
  induction s as [|x s IH]; [done|].
  rewrite string_app_cons. cbn [last_char]. rewrite IH.
  destruct s; reflexivity.
Qed.

Lemma drop_last_app s c : drop_last (s +:+ String c EmptyString) = s.
Proof.
  induction s as [|x s IH]; [done|].
  rewrite string_app_cons. cbn [drop_last]. rewrite IH.
  destruct s; reflexivity.
Qed.

Lemma ends_with_cr_app s : ends_with_cr (s +:+ String CR EmptyString) = true.
Proof. unfold ends_with_cr. by rewrite last_char_app. Qed.

(** A line with balanced quotes and no carriage return outside them does
    not end with one. *)
Lemma sealed_no_final_cr inq s :
  parity inq s = false -> unquoted CR inq s = false -> ends_with_cr s = false.
Proof.
  revert inq. induction s as [|c s IH]; intros inq Hp Hu; [done|].
  cbn [parity unquoted] in Hp, Hu.
  destruct s as [|c' s'].
  - unfold ends_with_cr. cbn [last_char].
    destruct (Ascii.eqb c dquote) eqn:Hq.
    + apply Ascii.eqb_eq in Hq. by subst c.
    + cbn [parity] in Hp. subst inq. cbn [negb] in Hu.
      rewrite andb_true_r in Hu. by apply orb_false_iff in Hu as [-> _].
  - assert (Hrec : ends_with_cr (String c (String c' s'))
                   = ends_with_cr (String c' s')) by reflexivity.
    rewrite Hrec.
    destruct (Ascii.eqb c dquote); [by apply (IH (negb inq))|].
    apply orb_false_iff in Hu as [_ Hu]. by apply (IH inq).
Qed.


Lemma records_Forall2 (f : string -> option (list (option string)))
    lines values :
  Forall2 (fun l v => f l = Some v) lines values ->
  records f lines = Some values.
Proof.
  induction 1 as [|l v lines values Hl _ IH]; [done|].
  cbn [records]. by rewrite Hl, IH.
Qed.

(** What [read] makes of lines of fields, with either line end. *)
Lemma read_lines (crlf : bool) (rows : list (list string))
    (values : list (list (option string))) :
  rows <> [] ->
  Forall2 (fun texts vals => texts <> [] /\ Forall2 field_of texts vals)
    rows values ->
  read (String.concat EmptyString
          (map (fun texts =>
                  join "," texts
                  +:+ (if crlf then String CR (String LF EmptyString)
                       else String LF EmptyString)) rows))
  = Some values.
Proof.
  intros Hne Hrows.
  set (pre := if crlf then String CR EmptyString else EmptyString).
  assert (Hpayload :
    map (fun texts => join "," texts
                      +:+ (if crlf then String CR (String LF EmptyString)
                           else String LF EmptyString)) rows
    = map (fun l => l +:+ String LF EmptyString)
        (map (fun texts => join "," texts +:+ pre) rows)).
  { rewrite map_map. apply map_ext. intros texts. unfold pre.
    destruct crlf; [|by rewrite string_app_empty_r].
    by rewrite string_app_assoc. }
  assert (Hsealed : forall c texts vals,
            Forall2 field_of texts vals ->
            Ascii.eqb c LF || Ascii.eqb c CR = true ->
            parity false (join "," texts) = false
            /\ unquoted c false (join "," texts) = false)
    by (intros c texts vals H Hc; by apply (join_sealed c texts vals)).
  assert (Hlines : Forall (fun l => unquoted LF false l = false
                                    /\ parity false l = false)
                     (map (fun texts => join "," texts +:+ pre) rows)).
  { clear Hne Hpayload.
    induction Hrows as [|t v rows values [_ Hf] _ IH]; cbn [map];
      constructor; [|exact IH].
    destruct (Hsealed LF t v Hf eq_refl) as [Hp Hu].
    rewrite parity_app, unquoted_app, Hp, Hu. unfold pre.
    by destruct crlf. }
  unfold read. rewrite Hpayload, (lines_from_concat _ Hlines). clear Hlines.
  clear Hpayload. subst pre.
  assert (Hfirst : exists texts vals rows', rows = texts :: rows'
                     /\ Forall2 field_of texts vals).
  { destruct Hrows as [|texts vals rows values [_ Hf1] _]; [done|].
    by exists texts, vals, rows. }
  destruct Hfirst as (texts & vals & rows' & Hrows' & Hf1).
  destruct (Hsealed LF texts vals Hf1 eq_refl) as [Hp Hlf].
  destruct (Hsealed CR texts vals Hf1 eq_refl) as [_ Hcr].
  destruct crlf.
  - assert (Hcrlf : match map (fun texts => join "," texts
                                            +:+ String CR EmptyString) rows
                    with
                    | [] => false
                    | first :: _ => ends_with_cr first
                    end = true).
    { rewrite Hrows'. cbn [map]. apply ends_with_cr_app. }
    destruct (map _ rows) as [|first lines] eqn:Hmap; [discriminate Hcrlf|].
    rewrite Hcrlf, <- Hmap. apply records_Forall2, Forall2_fmap_l.
    eapply Forall2_impl; [exact Hrows|].
    intros t v [Hnet Hft]. unfold compose. cbv beta.
    rewrite ends_with_cr_app, drop_last_app. unfold fields.
    destruct (Hsealed CR t v Hft eq_refl) as [_ ->].
    by apply fields_from_join.
  - assert (Hlf' : match map (fun texts => join "," texts +:+ EmptyString)
                           rows
                   with
                   | [] => true
                   | first :: _ => negb (ends_with_cr first)
                   end = true).
    { rewrite Hrows'. cbn [map]. rewrite string_app_empty_r.
      by rewrite (sealed_no_final_cr false _ Hp Hcr). }
    destruct (map _ rows) as [|first lines] eqn:Hmap.
    { rewrite Hrows' in Hmap. discriminate Hmap. }
    apply negb_true_iff in Hlf'. rewrite Hlf', <- Hmap.
    apply records_Forall2, Forall2_fmap_l.
    eapply Forall2_impl; [exact Hrows|].
    intros t v [Hnet Hft]. unfold compose. cbv beta.
    rewrite string_app_empty_r. unfold fields.
    destruct (Hsealed CR t v Hft eq_refl) as [_ ->].
    by apply fields_from_join.
Qed.

(** *** The fields that [to_csv] writes *)

Lemma csv_line_join lib texts :
  1 < length texts -> csv_line lib texts = join "," texts +:+ linesep lib.
Proof.
  destruct texts as [|a [|b l]]; cbn [length]; try lia. reflexivity.
Qed.

Lemma has_char_false x s :
  has_char x s = false ->
  all_chars (fun c => negb (Ascii.eqb c x)) s = true.
Proof.
  induction s as [|c s IH]; [done|]. cbn [has_char all_chars].
  intros [Hc Hs]%orb_false_iff. rewrite (IH Hs), andb_true_r.
  rewrite Ascii.eqb_sym. by rewrite Hc.
Qed.

Lemma all_chars_and p q s :
  all_chars p s = true -> all_chars q s = true ->
  all_chars (fun c => p c && q c) s = true.
Proof.
  induction s as [|c s IH]; [done|]. cbn [all_chars].
  intros [Hp Hps]%andb_true_iff [Hq Hqs]%andb_true_iff.
  by rewrite Hp, Hq, IH.
Qed.

(** A text as the writer quotes it, on a platform whose line ends are LF
    (for a text without carriage return) or CR LF. *)
Lemma csv_quote_field lib s :
  (linesep lib = String LF EmptyString /\ no_cr s = true)
  \/ linesep lib = String CR (String LF EmptyString) ->
  field_of (csv_quote lib s) (field_value false s).
Proof.
  intros Hmode. unfold csv_quote.
  destruct (all_chars (fun c => negb (csv_special lib c)) s) eqn:E.
  - left. split; [|done].
    destruct Hmode as [[Hsep Hcr]|Hsep].
    + apply negb_true_iff, has_char_false in Hcr.
      pose proof (all_chars_and _ _ _ E Hcr) as H.
      revert H. apply all_chars_impl. intros c. unfold csv_special, plain_char.
      rewrite Hsep. cbn [has_char].
      destruct (Ascii.eqb c ","), (Ascii.eqb c dquote), (Ascii.eqb c LF),
        (Ascii.eqb c CR); done.
    + revert E. apply all_chars_impl. intros c. unfold csv_special, plain_char.
      rewrite Hsep. cbn [has_char].
      destruct (Ascii.eqb c ","), (Ascii.eqb c dquote), (Ascii.eqb c LF),
        (Ascii.eqb c CR); done.
  - right. exists s. split; [done|]. by destruct s.
Qed.

Lemma csv_field_field lib v :
  (linesep lib = String LF EmptyString /\ no_cr (py_str lib v) = true)
  \/ linesep lib = String CR (String LF EmptyString) ->
  field_of (csv_field lib v) (written lib v).
Proof.
  intros Hmode. unfold csv_field, written.
  destruct (isna v); [by left | by apply csv_quote_field].
Qed.

Lemma cr_free_label lib f c :
  cr_free lib f = true -> c ∈ cols f -> no_cr (fst c) = true.
Proof.
  unfold cr_free. rewrite forallb_forall. intros H Hc.
  apply list_elem_of_In in Hc. specialize (H c Hc).
  by apply andb_true_iff in H as [H _].
Qed.

Lemma cr_free_cell lib f c i :
  cr_free lib f = true -> c ∈ cols f ->
  no_cr (py_str lib (default PNaN (snd c !! i))) = true.
Proof.
  unfold cr_free. rewrite forallb_forall. intros H Hc.
  apply list_elem_of_In in Hc. specialize (H c Hc).
  apply andb_true_iff in H as [_ H]. rewrite forallb_forall in H.
  destruct (snd c !! i) as [v|] eqn:Hv; [|done]. cbn [default].
  apply H, list_elem_of_In. by apply list_elem_of_lookup_2 in Hv.
Qed.

(** The payload of a table of two columns or more, read back: the labels,
    then row by row what is written for each cell. *)
Lemma read_to_csv lib (f : frame string) :
  1 < length (cols f) ->
  line_ends lib f ->
  read (to_csv lib f)
  = Some (map (field_value false) (labels f)
          :: map (fun i => map (written lib) (row_at f i)) (seq 0 (nrows f))).
Proof.
  intros Hlen Hends.
  set (rows := map (csv_quote lib) (labels f)
               :: map (fun i => map (csv_field lib) (row_at f i))
                    (seq 0 (nrows f))).
  assert (Hcsv : to_csv lib f
                 = String.concat EmptyString
                     (map (fun texts => join "," texts +:+ linesep lib) rows)).
  { unfold to_csv, rows. cbn [map]. rewrite concat_cons, map_map.
    rewrite csv_line_join
      by (unfold labels; by rewrite !length_map).
    f_equal. f_equal. apply map_ext. intros i.
    apply csv_line_join. unfold row_at. by rewrite !length_map. }
  assert (Hrows : Forall2 (fun texts vals =>
                             texts <> [] /\ Forall2 field_of texts vals)
                    rows
                    (map (field_value false) (labels f)
                     :: map (fun i => map (written lib) (row_at f i))
                          (seq 0 (nrows f)))).
  { unfold rows. constructor.
    - split.
      { unfold labels. destruct (cols f); [cbn in Hlen; lia | done]. }
      apply Forall2_fmap, Forall_Forall2_diag, Forall_forall.
      intros l Hl. apply csv_quote_field.
      destruct Hends as [[Hsep Hfree]|Hsep]; [left|by right].
      split; [done|]. unfold labels in Hl.
      apply list_elem_of_In, in_map_iff in Hl as (c & <- & Hc).
      apply list_elem_of_In in Hc. by apply (cr_free_label lib f).
    - apply Forall2_fmap, Forall_Forall2_diag, Forall_forall.
      intros i _. split.
      { unfold row_at. destruct (cols f); [cbn in Hlen; lia | done]. }
      unfold row_at. rewrite !map_map.
      apply Forall2_fmap, Forall_Forall2_diag, Forall_forall.
      intros c Hc. apply csv_field_field.
      destruct Hends as [[Hsep Hfree]|Hsep]; [left|by right].
      split; [done|]. by apply (cr_free_cell lib f). }
  rewrite Hcsv.
  destruct Hends as [[Hsep _]|Hsep]; rewrite Hsep.
  - by apply (read_lines false).
  - by apply (read_lines true).
Qed.

End CsvFacts.

(** ** A column through [map_dataframe] *)

Section ColumnFacts.










Context (df : frame string) (col_map : gmap string string).
Hypothesis df_well_formed : well_formed df.



End ColumnFacts.

Section UpdateFacts.
Context (f : list pyval -> result (list pyval)).
Hypothesis f_length : forall v v', f v = Ok v' -> length v' = length v.




End UpdateFacts.

Section TraceFacts.
Context (lib : library).





End TraceFacts.

(** ** The date column *)

Section DateColumnFacts.













End DateColumnFacts.





(** ** Round trip *)

(** C8 (the claim fails). Two sheets that differ in one category cell, a
    blank text in the one and a missing value in the other, give two
    CanonicalTables that differ in that cell, present (the empty text) in
    the one and absent in the other, and the same payload: whatever the
    store makes of a payload, reading it back cannot give both tables. And
    the read path gives a date back as a text. *)
Lemma blank_text_and_absent_share_a_payload :
  exists t1 t2,
    map_dataframe Reference.lib MoreExamples.blank_category = Ok t1
    /\ map_dataframe Reference.lib MoreExamples.missing_category = Ok t2
    /\ column t1 "category" = Ok [PStr EmptyString]
    /\ column t2 "category" = Ok [PNA]
    /\ isna (PStr EmptyString) = false /\ isna PNA = true
    /\ to_csv Reference.lib t1 = to_csv Reference.lib t2
    /\ (forall read_back : string -> frame string,
          ~ (read_back (to_csv Reference.lib t1) = t1
             /\ read_back (to_csv Reference.lib t2) = t2))
    /\ Api.to_json (fun x => x) (Api.VDate (Date 2024 3 5))
       = Api.VStr "2024-03-05".
Proof.
  eexists _, _.
  split; [vm_compute; reflexivity|]. split; [vm_compute; reflexivity|].
  split; [vm_compute; reflexivity|]. split; [vm_compute; reflexivity|].
  split; [reflexivity|]. split; [reflexivity|].
  split; [vm_compute; reflexivity|].
  split; [|vm_compute; reflexivity].
  intros read_back [H1 H2].
  assert (Heq : to_csv Reference.lib
                  {| nrows := 1;
                     cols := [("outlet", [PStr "A"]); ("date", [PNaT]);
                              ("day", [PStr "<NA>"]); ("guest_count", [PNA]);
                              ("category", [PStr ""]); ("quantity", [PNA]);
                              ("cost_price", [PNaN]);
                              ("selling_price", [PNaN]);
                              ("total_sales", [PNaN]);
                              ("total_cost_price", [PNaN]);
                              ("profit", [PNaN])] |}
                = to_csv Reference.lib
                    {| nrows := 1;
                       cols := [("outlet", [PStr "A"]); ("date", [PNaT]);
                                ("day", [PStr "<NA>"]); ("guest_count", [PNA]);
                                ("category", [PNA]); ("quantity", [PNA]);
                                ("cost_price", [PNaN]);
                                ("selling_price", [PNaN]);
                                ("total_sales", [PNaN]);
                                ("total_cost_price", [PNaN]);
                                ("profit", [PNaN])] |})
    by (vm_compute; reflexivity).
  rewrite Heq in H1. rewrite H1 in H2. discriminate H2.
Qed.

(** C8 (amended). What the Bulk Loader sends to the store is the payload
    of the CanonicalTable. For a table of two columns or more, that
    payload, read by the rules of the bulk-ingest format, holds the labels
    and then, row by row and column by column, the null value for every
    absent cell and the text of every present cell in full, but for a
    present cell whose text is empty, which stands as the null value too.
    The read path changes the values of a row as follows: a null comes back
    as [None], a whole number and a text as they are, a date as its ISO
    text and a NUMERIC value as a float. *)
Theorem payload_read_back {R : Type}
    (store_copy : string -> string -> option (list R)) (lib : library)
    (f : frame string) (table0 : list R)
    (float_of_decimal : decimal -> decimal) :
  1 < length (cols f) ->
  line_ends lib f ->
  (exists rest,
     log (snd (copy_df_to_postgres store_copy lib f (connect table0)
                 TARGET_TABLE TARGET_COLS))
     = EvCopy (copy_sql TARGET_TABLE TARGET_COLS) (to_csv lib f) :: rest)
  /\ Csv.read (to_csv lib f)
     = Some (map (Csv.field_value false) (labels f)
             :: map (fun i => map (written lib) (row_at f i))
                  (seq 0 (nrows f)))
  /\ (forall v, isna v = true -> written lib v = None)
  /\ (forall v, isna v = false -> py_str lib v <> EmptyString ->
        written lib v = Some (py_str lib v))
  /\ (forall v, isna v = false -> py_str lib v = EmptyString ->
        written lib v = None)
  /\ (forall m, NoDup (map fst m) ->
        Api.row_to_dict float_of_decimal (Api.SqlRow m)
        = map (fun kv => (fst kv, Api.to_json float_of_decimal (snd kv))) m)
  /\ Api.to_json float_of_decimal Api.VNone = Api.VNone
  /\ (forall z, Api.to_json float_of_decimal (Api.VInt z) = Api.VInt z)
  /\ (forall s, Api.to_json float_of_decimal (Api.VStr s) = Api.VStr s)
  /\ (forall d, Api.to_json float_of_decimal (Api.VDate d)
                = Api.VStr (isoformat d))
  /\ (forall x, Api.to_json float_of_decimal (Api.VDecimal x)
                = Api.VFloat (float_of_decimal x)).
Proof.
  intros Hlen Hends. split.
  { unfold copy_df_to_postgres, copy_expert.
    destruct (store_copy _ _); cbn; eexists; reflexivity. }
  split; [by apply read_to_csv|].
  split. { intros v Hv. unfold written. by rewrite Hv. }
  split. { intros v Hv Hs. unfold written, Csv.field_value. rewrite Hv.
           by destruct (py_str lib v). }
  split. { intros v Hv Hs. unfold written. by rewrite Hv, Hs. }
  split. { intros m Hnd. unfold Api.row_to_dict.
           by rewrite (row_to_dict_loop float_of_decimal m []). }
  done.
Qed.

Lemma payload_read_back_witness :
  exists out,
    map_dataframe Reference.lib Examples.outlet_date_qty = Ok out
    /\ Csv.read (to_csv Reference.lib out)
       = Some [ map Some TARGET_COLS;
                [Some "A"; Some "2024-03-05"; Some "<NA>"; None; Some "<NA>";
                 None; None; None; None; None; None] ].
Proof.
  eexists.
  assert (Hrun : map_dataframe Reference.lib Examples.outlet_date_qty = Ok _)
    by (vm_compute; reflexivity).
  split; [exact Hrun|].
  match type of Hrun with
  | _ = Ok ?o =>
      assert (Hlen : 1 < length (cols o)) by (vm_compute; lia);
      assert (Hends : line_ends Reference.lib o)
        by (left; split; vm_compute; reflexivity);
      rewrite (proj1 (proj2 (payload_read_back (fun _ _ => @None (list unit))
                               Reference.lib o [] (fun x => x) Hlen Hends)))
  end.
  vm_compute. reflexivity.
Defined.

(** ** The payload of a coerced sheet *)


